(** * Spotify streaming-history analysis: shard ingestion, normalisation
      and the grouped summaries of [analysis.py]

    The development follows the script top to bottom:

    - [Py]        the Python values and exceptions the script manipulates
                  (parsed JSON, exception classes, outcomes of a call);
    - [Loader]    [load_json] and the [while True] loop of
                  [load_all_music_history], as a state-and-exception monad
                  over the file system, the list being built and stdout;
    - [Timestamps] timestamps as [pd.to_datetime] yields them for the export
                  format, with the [.dt] accessors the script uses;
    - [Pandas]    data frames as maps from column names to typed columns,
                  [groupby(..).sum()], [count()], [sort_values], [head],
                  [reindex] and boolean-mask selection;
    - [Analysis]  [history_to_df], [plot_overall_stats] and
                  [plot_listening_patterns] over the two global frames;
    - [Toplevel]  the module-level statements: the [try] that loads the
                  four files, the two calls of [history_to_df] and the
                  calls of the two summary functions.

    Numbers.  [minutesPlayed] is a binary64 float in the script.  Here a
    float column holds rationals ([Q]) and [/], [+] and [>] are exact;
    the frames and summaries do not model the rounding of binary64
    arithmetic.  Where a statement depends on the rounding, [Binary64]
    has the division, the sum and the grouped sum on binary64 floats.
    The missing value NaN, which [reindex] introduces, is modelled
    explicitly. *)

From Stdlib Require Import QArith Ascii String.
From Stdlib Require PrimFloat Uint63.
From stdpp Require Import gmap strings list fin_maps pretty sorting.


(* ===================================================================== *)
(** ** Python values and exceptions *)
(* ===================================================================== *)

Module Py.

(** The exception classes that can reach the handlers of the script.  All
    of them derive from [Exception]. *)
Inductive exn_class :=
  | FileNotFoundError
  | PermissionError
  | IsADirectoryError
  | UnicodeDecodeError
  | JSONDecodeError
  | TypeError
  | KeyError
  | ValueError
  | AttributeError.

Global Instance exn_class_eq_dec : EqDecision exn_class.
Proof. solve_decision. Defined.

(** An exception instance: its class and [str(e)]. *)
Record exn := Exn { exn_cls : exn_class; exn_str : string }.

(** The result of a call: a value, a raised exception, or [Unmodelled]
    when the input lies outside the shapes this development covers (the
    library then does something the embedding does not describe). *)
Inductive outcome (A : Type) :=
  | Ok (a : A)
  | Raise (e : exn)
  | Unmodelled.
Global Arguments Ok {A} a.
Global Arguments Raise {A} e.
Global Arguments Unmodelled {A}.

Definition obind {A B} (m : outcome A) (k : A → outcome B) : outcome B :=
  match m with
  | Ok a => k a
  | Raise e => Raise e
  | Unmodelled => Unmodelled
  end.

(** Statements over a program state [S]: state transformers that may
    raise.  The state reached when an exception is raised is kept, as in
    Python. *)
Definition M (S A : Type) : Type := S → S * outcome A.

Definition ret {S A} (a : A) : M S A := λ st, (st, Ok a).
Definition bind {S A B} (m : M S A) (k : A → M S B) : M S B :=
  λ st, match m st with
        | (st', Ok a) => k a st'
        | (st', Raise e) => (st', Raise e)
        | (st', Unmodelled) => (st', Unmodelled)
        end.
Definition lift {S A} (o : outcome A) : M S A := λ st, (st, o).

Notation "'let?' x ':=' m 'in' k" := (obind m (λ x, k))
  (at level 10, x name, m at level 100, k at level 200).
Notation "'let!' x ':=' m 'in' k" := (bind m (λ x, k))
  (at level 10, x name, m at level 100, k at level 200).
Notation "'exec' m 'then' k" := (bind m (λ _, k))
  (at level 10, m at level 100, k at level 200).

(** What [json.load] returns.  [JObj] is a Python [dict]: its keys are
    distinct and kept in insertion order.  Numbers are the integers of
    the export format. *)
#[warnings="-register-all"]
Inductive json :=
  | JNull
  | JBool (b : bool)
  | JInt (z : Z)
  | JStr (s : string)
  | JArr (items : list json)
  | JObj (fields : list (string * json)).

(** [d.get(k)] on a parsed record; [None] when [j] is not a dict or has
    no such key. *)
Fixpoint assoc {A} (k : string) (fields : list (string * A)) : option A :=
  match fields with
  | [] => None
  | (k', v) :: fields' => if decide (k' = k) then Some v else assoc k fields'
  end.

Definition json_get (k : string) (j : json) : option json :=
  match j with
  | JObj fields => assoc k fields
  | _ => None
  end.

Definition json_keys (j : json) : option (list string) :=
  match j with
  | JObj fields => Some (fields.*1)
  | _ => None
  end.

(** The characters of a string, each as a one-character string: what
    iterating over a [str] yields. *)
Fixpoint str_chars (s : string) : list string :=
  match s with
  | EmptyString => []
  | String c s' => String c EmptyString :: str_chars s'
  end.

(** [list(x)] for a parsed JSON value: the elements a [for] loop (and so
    [list.extend]) sees, or [TypeError] for the values that are not
    iterable. *)
Definition py_iter (x : json) : outcome (list json) :=
  match x with
  | JArr items => Ok items
  | JObj fields => Ok (JStr <$> fields.*1)
  | JStr s => Ok (JStr <$> str_chars s)
  | JNull => Raise (Exn TypeError "'NoneType' object is not iterable")
  | JBool _ => Raise (Exn TypeError "'bool' object is not iterable")
  | JInt _ => Raise (Exn TypeError "'int' object is not iterable")
  end.

(** [len(x)]. *)
Definition py_len (x : json) : outcome nat :=
  match x with
  | JArr items => Ok (length items)
  | JObj fields => Ok (length fields)
  | JStr s => Ok (String.length s)
  | JNull => Raise (Exn TypeError "object of type 'NoneType' has no len()")
  | JBool _ => Raise (Exn TypeError "object of type 'bool' has no len()")
  | JInt _ => Raise (Exn TypeError "object of type 'int' has no len()")
  end.

End Py.
Export Py.

(* ===================================================================== *)
(** ** Shard ingestion: [load_json] and [load_all_music_history] *)
(* ===================================================================== *)

Module Loader.

(** A path that exists on disk either parses to a JSON value or makes
    [open]/[json.load] raise (unreadable, a directory, bad encoding,
    malformed JSON).  A path absent from the map does not exist. *)
Inductive file :=
  | FileJson (content : json)
  | FileBad (e : exn).

(** The state the loop runs in: the file system (only read), the paths
    handed to [open] so far, the lines printed, and the two locals of
    [load_all_music_history]. *)
Record state := State {
  fs : gmap string file;
  opened : list string;
  stdout : list string;
  all_music_data : list json;
  file_index : nat
}.

Definition print (line : string) : M state unit :=
  λ st, (State (fs st) (opened st) (stdout st ++ [line])
               (all_music_data st) (file_index st), Ok ()).

Definition no_such_file (file_path : string) : exn :=
  Exn FileNotFoundError
      ("[Errno 2] No such file or directory: '" +:+ file_path +:+ "'").

(** [load_json]: open the file and parse it. *)
Definition load_json (file_path : string) : M state json :=
  λ st,
    let st' := State (fs st) (opened st ++ [file_path]) (stdout st)
                     (all_music_data st) (file_index st) in
    match fs st !! file_path with
    | None => (st', Raise (no_such_file file_path))
    | Some (FileJson content) => (st', Ok content)
    | Some (FileBad e) => (st', Raise e)
    end.

(** [all_music_data.extend(music_data)]. *)
Definition extend (music_data : json) : M state unit :=
  let! items := lift (py_iter music_data) in
  λ st, (State (fs st) (opened st) (stdout st)
               (all_music_data st ++ items) (file_index st), Ok ()).

Definition incr_file_index : M state unit :=
  λ st, (State (fs st) (opened st) (stdout st)
               (all_music_data st) (S (file_index st)), Ok ()).

(** The f-string of line 26. *)
Definition shard_path (file_index : nat) : string :=
  "sampledata/StreamingHistory_music_" +:+ pretty file_index +:+ ".json".

Definition loaded_line (file_path : string) (n : nat) : string :=
  "Loaded " +:+ file_path +:+ " with " +:+ pretty n +:+ " entries".

Definition error_line (file_path : string) (e : exn) : string :=
  "Error loading " +:+ file_path +:+ ": " +:+ exn_str e.

(** The body of the [try]. *)
Definition try_block (file_path : string) : M state unit :=
  let! music_data := load_json file_path in
  exec extend music_data then
  let! n := lift (py_len music_data) in
  exec print (loaded_line file_path n) then
  incr_file_index.

(** How one iteration of [while True] ends. *)
Inductive flow :=
  | Continue
  | Break
  | Propagate (e : option exn).

(** One iteration: the [try] with its two handlers.  [file_path] is bound
    before anything can raise, so both handlers see it. *)
Definition iteration (st : state) : state * flow :=
  let file_path := shard_path (file_index st) in
  match try_block file_path st with
  | (st', Ok _) => (st', Continue)
  | (st', Raise e) =>
      if decide (exn_cls e = FileNotFoundError) then (st', Break)
      else (fst (print (error_line file_path e) st'), Break)
  | (st', Unmodelled) => (st', Propagate None)
  end.

(** [while True]: the loop has no bound of its own, so it is run with
    fuel; [None] means the fuel ran out before the loop was left. *)
Fixpoint while_true (fuel : nat) (st : state) : option (state * outcome unit) :=
  match fuel with
  | O => None
  | S fuel' =>
      match iteration st with
      | (st', Continue) => while_true fuel' st'
      | (st', Break) => Some (st', Ok ())
      | (st', Propagate (Some e)) => Some (st', Raise e)
      | (st', Propagate None) => Some (st', Unmodelled)
      end
  end.

Definition initial (files : gmap string file) : state :=
  State files [] [] [] 0.

(** [load_all_music_history]: the final state (for the paths opened and
    the lines printed) and the returned list. *)
Definition load_all_music_history (fuel : nat) (files : gmap string file)
  : option (state * outcome (list json)) :=
  match while_true fuel (initial files) with
  | None => None
  | Some (st, Ok _) => Some (st, Ok (all_music_data st))
  | Some (st, Raise e) => Some (st, Raise e)
  | Some (st, Unmodelled) => Some (st, Unmodelled)
  end.

(** The state after one shard with records [recs] has been loaded. *)
Definition after_shard (st : state) (recs : list json) : state :=
  let file_path := shard_path (file_index st) in
  State (fs st) (opened st ++ [file_path])
        (stdout st ++ [loaded_line file_path (length recs)])
        (all_music_data st ++ recs) (S (file_index st)).

(** The state after the shards [shards] have been loaded one after the
    other. *)
Definition after_shards (st : state) (shards : list (list json)) : state :=
  foldl after_shard st shards.

(** The files numbered [first], [first + 1], ... exist and parse to the
    arrays [shards]. *)
Definition shards_present (files : gmap string file) (first : nat)
    (shards : list (list json)) : Prop :=
  ∀ i recs, shards !! i = Some recs →
    files !! shard_path (first + i) = Some (FileJson (JArr recs)).

(** The state in which [load_all_music_history] returns when the shards
    [shards] load and the next index stops the loop, printing [lines]. *)
Definition final_state (files : gmap string file)
    (shards : list (list json)) (lines : list string) : state :=
  let st := after_shards (initial files) shards in
  State files (opened st ++ [shard_path (length shards)])
        (stdout st ++ lines) (concat shards) (length shards).

End Loader.


(* ===================================================================== *)
(** ** Timestamps *)
(* ===================================================================== *)

Module Timestamps.

Local Open Scope Z_scope.

(** A [pd.Timestamp] at the resolution of the export format (minutes). *)
Record Timestamp := Timestamp_ {
  year : Z; month : Z; day : Z; hour : Z; minute : Z
}.

(** A [datetime.date]. *)
Record Date := Date_ { d_year : Z; d_month : Z; d_day : Z }.

Global Instance Timestamp_eq_dec : EqDecision Timestamp.
Proof. solve_decision. Defined.
Global Instance Date_eq_dec : EqDecision Date.
Proof. solve_decision. Defined.

Definition is_leap (y : Z) : bool :=
  ((y mod 4 =? 0) && negb (y mod 100 =? 0)) || (y mod 400 =? 0).

Definition days_in_month (y m : Z) : Z :=
  if m =? 2 then (if is_leap y then 29 else 28)
  else if (m =? 4) || (m =? 6) || (m =? 9) || (m =? 11) then 30
  else 31.

(** The instants a [datetime64[ns]] column can hold lie between 1677 and
    2262; the whole years in between are accepted. *)
Definition valid_timestamp (t : Timestamp) : bool :=
  (1678 <=? year t) && (year t <=? 2261) &&
  (1 <=? month t) && (month t <=? 12) &&
  (1 <=? day t) && (day t <=? days_in_month (year t) (month t)) &&
  (0 <=? hour t) && (hour t <=? 23) &&
  (0 <=? minute t) && (minute t <=? 59).

Definition digit (c : ascii) : option Z :=
  let n := Z.of_nat (nat_of_ascii c) in
  if (48 <=? n) && (n <=? 57) then Some (n - 48) else None.

Fixpoint number (acc : Z) (cs : list ascii) : option Z :=
  match cs with
  | [] => Some acc
  | c :: cs' =>
      match digit c with
      | Some d => number (10 * acc + d) cs'
      | None => None
      end
  end.

(** The layout of [endTime] in the export: ["YYYY-MM-DD HH:MM"]. *)
Definition scan (s : string) : option Timestamp :=
  match list_ascii_of_string s with
  | [y1; y2; y3; y4; "-"%char; m1; m2; "-"%char; d1; d2; " "%char;
     h1; h2; ":"%char; n1; n2] =>
      match number 0 [y1; y2; y3; y4], number 0 [m1; m2], number 0 [d1; d2],
            number 0 [h1; h2], number 0 [n1; n2] with
      | Some y, Some m, Some d, Some h, Some n => Some (Timestamp_ y m d h n)
      | _, _, _, _, _ => None
      end
  | _ => None
  end.

(** [pd.to_datetime] on one string.  pandas understands many more
    layouts than the export's, and raises on strings it cannot read;
    only the export layout with a valid instant is described here. *)
Definition to_datetime (s : string) : outcome Timestamp :=
  match scan s with
  | Some t => if valid_timestamp t then Ok t else Unmodelled
  | None => Unmodelled
  end.

(** [.dt.date], [.dt.hour]. *)
Definition dt_date (t : Timestamp) : Date := Date_ (year t) (month t) (day t).
Definition dt_hour (t : Timestamp) : Z := hour t.

(** [pd.to_datetime] on a [datetime.date]: midnight of that day. *)
Definition date_to_datetime (d : Date) : Timestamp :=
  Timestamp_ (d_year d) (d_month d) (d_day d) 0 0.

(** Days since 1970-01-01 in the proleptic Gregorian calendar. *)
Definition days_from_civil (y m d : Z) : Z :=
  let y' := if m <=? 2 then y - 1 else y in
  let era := y' / 400 in
  let yoe := y' - era * 400 in
  let mp := if m >? 2 then m - 3 else m + 9 in
  let doy := (153 * mp + 2) / 5 + d - 1 in
  let doe := yoe * 365 + yoe / 4 - yoe / 100 + doy in
  era * 146097 + doe - 719468.

(** [.weekday()]: Monday is 0. *)
Definition weekday (t : Timestamp) : Z :=
  (days_from_civil (year t) (month t) (day t) + 3) mod 7.

(** The list of line 126. *)
Definition day_order : list string :=
  ["Monday"; "Tuesday"; "Wednesday"; "Thursday"; "Friday"; "Saturday"; "Sunday"].

(** [.dt.day_name()]. *)
Definition day_name (t : Timestamp) : string :=
  default "" (day_order !! Z.to_nat (weekday t)).

Definition pad2 (z : Z) : string :=
  if z <? 10 then "0" +:+ pretty z else pretty z.

Definition pad4 (z : Z) : string :=
  if z <? 10 then "000" +:+ pretty z
  else if z <? 100 then "00" +:+ pretty z
  else if z <? 1000 then "0" +:+ pretty z
  else pretty z.

(** [.dt.strftime('%Y-%m')]. *)
Definition strftime_Y_m (t : Timestamp) : string :=
  pad4 (year t) +:+ "-" +:+ pad2 (month t).

(** Dates compare as the triples (year, month, day). *)
Definition date_le (a b : Date) : Prop :=
  d_year a < d_year b ∨
  (d_year a = d_year b ∧
   (d_month a < d_month b ∨ (d_month a = d_month b ∧ d_day a ≤ d_day b))).

Global Instance date_le_dec : RelDecision date_le.
Proof. intros a b. unfold date_le. apply _. Defined.

End Timestamps.
Export Timestamps.


(* ===================================================================== *)
(** ** The pandas operations the script uses *)
(* ===================================================================== *)

Module Pandas.

(** A column ([Series]) with its dtype: [object] holding strings,
    [int64], [float64] (without missing values), [datetime64[ns]], and
    [object] holding dates. *)
Inductive column :=
  | ColStr (l : list string)
  | ColInt (l : list Z)
  | ColFloat (l : list Q)
  | ColTime (l : list Timestamp)
  | ColDate (l : list Date).

(** A [float64] value of a summary: a number or the missing value. *)
Inductive float :=
  | Fin (q : Q)
  | NaN.

(** A [DataFrame]: its columns by name.  [df[k] = c] is [<[k:=c]> df]. *)
Abbreviation DataFrame := (gmap string column).

(** [df[k]]. *)
Definition getitem (df : DataFrame) (k : string) : outcome column :=
  match df !! k with
  | Some c => Ok c
  | None => Raise (Exn KeyError ("'" +:+ k +:+ "'"))
  end.

(** A column read as strings, as floats, as timestamps ([.dt]) or as
    dates. *)
Definition as_str (c : column) : outcome (list string) :=
  match c with
  | ColStr l => Ok l
  | _ => Unmodelled
  end.

Definition as_int (c : column) : outcome (list Z) :=
  match c with
  | ColInt l => Ok l
  | _ => Unmodelled
  end.

Definition as_float (c : column) : outcome (list Q) :=
  match c with
  | ColFloat l => Ok l
  | ColInt l => Ok (inject_Z <$> l)
  | _ => Unmodelled
  end.

Definition dt (c : column) : outcome (list Timestamp) :=
  match c with
  | ColTime l => Ok l
  | _ => Raise (Exn AttributeError
                    "Can only use .dt accessor with datetimelike values")
  end.

Definition as_date (c : column) : outcome (list Date) :=
  match c with
  | ColDate l => Ok l
  | _ => Unmodelled
  end.

(** *** Building a frame from parsed records: [pd.DataFrame(data)] *)

Fixpoint strs_of (cells : list (option json)) : option (list string) :=
  match cells with
  | [] => Some []
  | Some (JStr s) :: cells' => cons s <$> strs_of cells'
  | _ => None
  end.

Fixpoint ints_of (cells : list (option json)) : option (list Z) :=
  match cells with
  | [] => Some []
  | Some (JInt z) :: cells' => cons z <$> ints_of cells'
  | _ => None
  end.

(** The dtype of a column of cells; a cell is [None] where a record lacks
    the key.  Columns of strings and of integers are described. *)
Definition infer_column (cells : list (option json)) : outcome column :=
  match strs_of cells with
  | Some l => Ok (ColStr l)
  | None =>
      match ints_of cells with
      | Some l => Ok (ColInt l)
      | None => Unmodelled
      end
  end.

Definition add_column (data : list json) (k : string)
    (acc : outcome DataFrame) : outcome DataFrame :=
  let? df := acc in
  let? c := infer_column (json_get k <$> data) in
  Ok (<[k:=c]> df).

(** The keys of all the records, in order of occurrence; [None] when
    some element is not a dict. *)
Fixpoint record_keys (data : list json) : option (list string) :=
  match data with
  | [] => Some []
  | j :: data' =>
      match json_keys j, record_keys data' with
      | Some ks, Some ks' => Some (ks ++ ks')
      | _, _ => None
      end
  end.

(** [pd.DataFrame(data)] for a list of dicts: one column per key that
    occurs in some record.  An empty list gives a frame without
    columns. *)
Definition pd_DataFrame (data : list json) : outcome DataFrame :=
  match record_keys data with
  | Some keys => foldr (add_column data) (Ok ∅) keys
  | None => Unmodelled
  end.

(** [pd.to_datetime(column)]. *)
Fixpoint to_datetime_all (l : list string) : outcome (list Timestamp) :=
  match l with
  | [] => Ok []
  | s :: l' =>
      let? t := to_datetime s in
      let? ts := to_datetime_all l' in
      Ok (t :: ts)
  end.

Definition pd_to_datetime (c : column) : outcome column :=
  match c with
  | ColStr l => let? ts := to_datetime_all l in Ok (ColTime ts)
  | ColTime l => Ok (ColTime l)
  | ColDate l => Ok (ColTime (date_to_datetime <$> l))
  | _ => Unmodelled
  end.

(** [column / d] for an integer [d]. *)
Definition truediv (c : column) (d : Z) : outcome column :=
  match c with
  | ColInt l => Ok (ColFloat ((λ z, inject_Z z / inject_Z d)%Q <$> l))
  | ColFloat l => Ok (ColFloat ((λ q, q / inject_Z d)%Q <$> l))
  | ColStr _ =>
      Raise (Exn TypeError "unsupported operand type(s) for /: 'str' and 'int'")
  | _ => Unmodelled
  end.

(** *** Reductions and grouping *)

(** [Series.sum()], exact: the sum of the values as rationals.  The
    sum of the script rounds after each addition, so it depends on the
    order in which the values are added; [Binary64.sum64] is that sum. *)
Definition Qsum (l : list Q) : Q := foldr Qplus 0%Q l.

Section groupby.
Context {K : Type} `{EqDecision K}.
Context (R : relation K) `{∀ x y, Decision (R x y)}.

(** The group labels of [groupby(key)] (with its default [sort=True]):
    the distinct keys, in ascending order. *)
Definition group_keys (keys : list K) : list K :=
  merge_sort R (remove_dups keys).

(** The values of the rows whose key is [k], in row order. *)
Definition rows_of {V} (k : K) (rows : list (K * V)) : list V :=
  (filter (λ kv, kv.1 = k) rows).*2.

Definition group_rows {V} (k : K) (keys : list K) (vals : list V) : list V :=
  rows_of k (zip keys vals).

(** [df.groupby(key)[val].sum()]. *)
Definition groupby_sum (keys : list K) (vals : list Q) : list (K * Q) :=
  (λ k, (k, Qsum (group_rows k keys vals))) <$> group_keys keys.

(** [df.groupby(key)[val].count()]. *)
Definition groupby_count {V} (keys : list K) (vals : list V) : list (K * nat) :=
  (λ k, (k, length (group_rows k keys vals))) <$> group_keys keys.
End groupby.

Global Instance Qle_dec : RelDecision Qle.
Proof.
  intros x y. destruct (Qlt_le_dec y x) as [Hlt | Hle].
  - right. by apply Qlt_not_le.
  - by left.
Defined.

Global Instance Qlt_dec : RelDecision Qlt.
Proof.
  intros x y. destruct (Qlt_le_dec x y) as [Hlt | Hle].
  - by left.
  - right. by apply Qle_not_lt.
Defined.

Section sort_values.
Context {K V : Type} (le : relation V) `{∀ x y, Decision (le x y)}.

(** The order of two entries of a series by their values. *)
Definition by_value : relation (K * V) := λ a b, le a.2 b.2.

(** Insertion into an ascending run, before the first entry that is
    not smaller. *)
Fixpoint insert_asc (a : K * V) (s : list (K * V)) : list (K * V) :=
  match s with
  | [] => [a]
  | b :: s' => if decide (le a.2 b.2) then a :: b :: s' else b :: insert_asc a s'
  end.

(** The ascending sort by value that [sort_values] calls.  The default
    kind (NumPy's quicksort) sorts short arrays by insertion, which
    keeps equal values in their order; for longer arrays it promises no
    order among equal values.  A stable insertion sort stands for it. *)
Definition sort_asc (s : list (K * V)) : list (K * V) :=
  foldr insert_asc [] s.

(** [Series.sort_values(ascending=False)]: pandas reverses the series,
    sorts it ascending and reverses the result. *)
Definition sort_values_desc (s : list (K * V)) : list (K * V) :=
  reverse (sort_asc (reverse s)).
End sort_values.

(** [Series.head(n)]. *)
Definition head {A} (n : nat) (s : list A) : list A := take n s.

(** [Series.reindex(labels)]: one entry per label, in the order of
    [labels]; a label the series does not have gets NaN. *)
Definition reindex (labels : list string) (s : list (string * Q))
  : list (string * float) :=
  (λ l, (l, from_option Fin NaN (assoc l s))) <$> labels.

(** [Series.reset_index()] keeps the rows and their order; the summary
    stays a list of (key, value) rows. *)
Definition reset_index {K V} (s : list (K * V)) : list (K * V) := s.

(** *** Selection by a boolean mask: [df[mask]] *)

Definition mask_select {A} (mask : list bool) (l : list A) : list A :=
  (filter (λ p, p.1 = true) (zip mask l)).*2.

Definition column_select (mask : list bool) (c : column) : column :=
  match c with
  | ColStr l => ColStr (mask_select mask l)
  | ColInt l => ColInt (mask_select mask l)
  | ColFloat l => ColFloat (mask_select mask l)
  | ColTime l => ColTime (mask_select mask l)
  | ColDate l => ColDate (mask_select mask l)
  end.

Definition df_select (mask : list bool) (df : DataFrame) : DataFrame :=
  column_select mask <$> df.

(** [column > x]. *)
Definition gt (l : list Q) (x : Q) : list bool :=
  (λ q, bool_decide (x < q)%Q) <$> l.

End Pandas.
Export Pandas.

(* ===================================================================== *)
(** ** The script: normalisation and the two summary functions *)
(* ===================================================================== *)

Module Analysis.

(** [history_to_df]. *)
Definition history_to_df (history_data : list json) : outcome DataFrame :=
  let? df := pd_DataFrame history_data in
  let? c := getitem df "endTime" in
  let? c := pd_to_datetime c in
  let df := <["endTime":=c]> df in
  let? c := getitem df "endTime" in
  let? ts := dt c in
  let df := <["date":=ColDate (dt_date <$> ts)]> df in
  let? c := getitem df "msPlayed" in
  let? c := truediv c 60000 in
  let df := <["minutesPlayed":=c]> df in
  Ok df.

(** The module-level frames both summary functions work on. *)
Record globals := Globals {
  music_df : DataFrame;
  podcast_df : DataFrame
}.

(** [music_df[k]], [podcast_df[k]] and [music_df[k] = c]. *)
Definition music (k : string) : M globals column :=
  λ g, (g, getitem (music_df g) k).

Definition podcast (k : string) : M globals column :=
  λ g, (g, getitem (podcast_df g) k).

Definition set_music (k : string) (c : column) : M globals unit :=
  λ g, (Globals (<[k:=c]> (music_df g)) (podcast_df g), Ok ()).

Definition get_music_df : M globals DataFrame :=
  λ g, (g, Ok (music_df g)).

(** What [plot_overall_stats] computes and hands to the plotting calls. *)
Record overall_stats := OverallStats {
  listening_times : list (string * Q);
  top_artists : list (string * Q);
  daily_listening : list (Timestamp * Q);
  track_counts : list (string * nat)
}.

(** [plot_overall_stats], without the drawing: the summaries, in the
    order in which the function computes them.  In the source the calls
    that draw a summary stand between the computations; what a drawing
    call does or raises (on a frame without rows, for one) is not
    described. *)
Definition plot_overall_stats : M globals overall_stats :=
  (* 1. total listening time by content type *)
  let! c := music "minutesPlayed" in
  let! minutes := lift (as_float c) in
  let total_music_minutes := Qsum minutes in
  let! c := podcast "minutesPlayed" in
  let! podcast_minutes := lift (as_float c) in
  let total_podcast_minutes := Qsum podcast_minutes in
  let content_types := ["Music"; "Podcasts"] in
  let listening_times := [total_music_minutes; total_podcast_minutes] in
  (* 2. top 10 artists by listening time *)
  let! k := music "artistName" in
  let! artists := lift (as_str k) in
  let! c := music "minutesPlayed" in
  let! minutes := lift (as_float c) in
  let top_artists :=
    head 10 (sort_values_desc Qle (groupby_sum String.le artists minutes)) in
  (* 3. listening activity over time *)
  let! k := music "date" in
  let! dates := lift (as_date k) in
  let! c := music "minutesPlayed" in
  let! minutes := lift (as_float c) in
  let daily_listening := reset_index (groupby_sum date_le dates minutes) in
  let daily_listening := prod_map date_to_datetime id <$> daily_listening in
  (* 4. top tracks by play count *)
  let! k := music "trackName" in
  let! tracks := lift (as_str k) in
  let! c := music "minutesPlayed" in
  let! minutes := lift (as_float c) in
  let track_counts :=
    head 10 (sort_values_desc le (groupby_count String.le tracks minutes)) in
  ret (OverallStats (zip content_types listening_times) top_artists
                    daily_listening track_counts).

(** What [plot_listening_patterns] computes and hands to the plotting
    calls; [durations] is the column given to [histplot]. *)
Record listening_patterns := ListeningPatterns {
  hourly_listening : list (Z * Q);
  weekly_listening : list (string * float);
  monthly_listening : list (string * Q);
  valid_plays : DataFrame;
  durations : list Q
}.

(** [plot_listening_patterns], without the drawing.  The literal [0.1]
    is read as the rational 1/10. *)
Definition plot_listening_patterns : M globals listening_patterns :=
  (* hour of day *)
  let! c := music "endTime" in
  let! ts := lift (dt c) in
  exec set_music "hour" (ColInt (dt_hour <$> ts)) then
  let! k := music "hour" in
  let! hours := lift (as_int k) in
  let! c := music "minutesPlayed" in
  let! minutes := lift (as_float c) in
  let hourly_listening := groupby_sum Z.le hours minutes in
  (* day of week *)
  let! c := music "endTime" in
  let! ts := lift (dt c) in
  exec set_music "day_of_week" (ColStr (day_name <$> ts)) then
  let! k := music "day_of_week" in
  let! days := lift (as_str k) in
  let! c := music "minutesPlayed" in
  let! minutes := lift (as_float c) in
  let weekly_listening :=
    reindex day_order (groupby_sum String.le days minutes) in
  (* monthly listening trends *)
  let! c := music "endTime" in
  let! ts := lift (dt c) in
  exec set_music "month" (ColStr (strftime_Y_m <$> ts)) then
  let! k := music "month" in
  let! months := lift (as_str k) in
  let! c := music "minutesPlayed" in
  let! minutes := lift (as_float c) in
  let monthly_listening := reset_index (groupby_sum String.le months minutes) in
  (* track play durations *)
  let! c := music "minutesPlayed" in
  let! minutes := lift (as_float c) in
  let! df := get_music_df in
  let valid_plays := df_select (gt minutes (1 # 10)) df in
  let! c := lift (getitem valid_plays "minutesPlayed") in
  let! durations := lift (as_float c) in
  ret (ListeningPatterns hourly_listening weekly_listening monthly_listening
                         valid_plays durations).

End Analysis.
Export Analysis.

(* ===================================================================== *)
(** ** Records of the export and rows of a normalised frame *)
(* ===================================================================== *)

Module Normalized.

(** One record of a music shard as the export writes it. *)
Record play := Play {
  p_endTime : string;
  p_artistName : string;
  p_trackName : string;
  p_msPlayed : Z
}.

(** The parsed JSON of a record, with the keys in the order of the
    export. *)
Definition to_json (p : play) : json :=
  JObj [("endTime", JStr (p_endTime p));
        ("artistName", JStr (p_artistName p));
        ("trackName", JStr (p_trackName p));
        ("msPlayed", JInt (p_msPlayed p))].

(** The keys of a record of the export. *)
Definition export_keys : list string :=
  ["endTime"; "artistName"; "trackName"; "msPlayed"].

(** The column [pd.DataFrame] builds for each key of the export. *)
Definition export_column (plays : list play) (k : string) : column :=
  if decide (k = "endTime") then ColStr (p_endTime <$> plays)
  else if decide (k = "artistName") then ColStr (p_artistName <$> plays)
  else if decide (k = "trackName") then ColStr (p_trackName <$> plays)
  else ColInt (p_msPlayed <$> plays).

(** One row of the frame [history_to_df] returns for music records. *)
Record event := Event {
  endTime : Timestamp;
  artistName : string;
  trackName : string;
  msPlayed : Z
}.

(** The two derived fields of a row. *)
Definition minutesPlayed (e : event) : Q :=
  (inject_Z (msPlayed e) / inject_Z 60000)%Q.

Definition date (e : event) : Date := dt_date (endTime e).

(** [e] is the row for the record [p]. *)
Definition row_of (p : play) (e : event) : Prop :=
  to_datetime (p_endTime p) = Ok (endTime e) ∧
  artistName e = p_artistName p ∧
  trackName e = p_trackName p ∧
  msPlayed e = p_msPlayed p.

(** The frame [df] holds the rows [evs], in this order, in the six
    columns of a normalised music frame.  It may have more columns. *)
Definition holds (df : DataFrame) (evs : list event) : Prop :=
  df !! "endTime" = Some (ColTime (endTime <$> evs)) ∧
  df !! "artistName" = Some (ColStr (artistName <$> evs)) ∧
  df !! "trackName" = Some (ColStr (trackName <$> evs)) ∧
  df !! "msPlayed" = Some (ColInt (msPlayed <$> evs)) ∧
  df !! "date" = Some (ColDate (date <$> evs)) ∧
  df !! "minutesPlayed" = Some (ColFloat (minutesPlayed <$> evs)).

(** The normalised frame with exactly the rows [evs]. *)
Definition frame_of (evs : list event) : DataFrame :=
  <["minutesPlayed" := ColFloat (minutesPlayed <$> evs)]>
  (<["date" := ColDate (date <$> evs)]>
  (<["endTime" := ColTime (endTime <$> evs)]>
  (<["artistName" := ColStr (artistName <$> evs)]>
  (<["trackName" := ColStr (trackName <$> evs)]>
  (<["msPlayed" := ColInt (msPlayed <$> evs)]> ∅))))).

(** The columns [plot_listening_patterns] adds to [music_df]. *)
Definition derived_columns : list string := ["hour"; "day_of_week"; "month"].

(** [g'] has the same podcast frame as [g], and its music frame agrees
    with that of [g] on every column but the derived ones. *)
Definition same_but_derived (g g' : globals) : Prop :=
  podcast_df g' = podcast_df g ∧
  ∀ k, k ∉ derived_columns → music_df g' !! k = music_df g !! k.

(** The position at which a key first occurs among the rows. *)
Definition first_seen {K} `{EqDecision K} (keys : list K) (k : K) : option nat :=
  fst <$> list_find (λ x, x = k) keys.

(** Entries of the summary [s] with equal values stand in the order in
    which their keys first occur in [keys]. *)
Definition ties_by_first_seen {K V} `{EqDecision K} (eqv : relation V)
    (keys : list K) (s : list (K * V)) : Prop :=
  ∀ i j a b, i < j → s !! i = Some a → s !! j = Some b → eqv a.2 b.2 →
    ∃ n m, first_seen keys a.1 = Some n ∧ first_seen keys b.1 = Some m ∧ n < m.

End Normalized.
Export Normalized.

(* ===================================================================== *)
(** ** Sample inputs *)
(* ===================================================================== *)

Module Samples.
Import Loader.

Definition play_a : play := Play "2024-01-01 10:00" "A" "T1" 180000.
Definition play_b : play := Play "2024-01-01 11:30" "B" "T2" 30000.

Definition shard_a : list json := [to_json play_a].
Definition shard_b : list json := [to_json play_b].

(** Shards 0 and 1. *)
Definition files_two : gmap string file :=
  {[ shard_path 0 := FileJson (JArr shard_a);
     shard_path 1 := FileJson (JArr shard_b) ]}.

(** Shards 0 and 2, no shard 1. *)
Definition files_gap : gmap string file :=
  {[ shard_path 0 := FileJson (JArr shard_a);
     shard_path 2 := FileJson (JArr shard_b) ]}.

(** Shard 1 only. *)
Definition files_only_1 : gmap string file :=
  {[ shard_path 1 := FileJson (JArr shard_b) ]}.

Definition decode_error : exn :=
  Exn JSONDecodeError "Expecting value: line 1 column 1 (char 0)".

(** Shard 0, and a shard 1 that is not valid JSON. *)
Definition files_bad : gmap string file :=
  {[ shard_path 0 := FileJson (JArr shard_a);
     shard_path 1 := FileBad decode_error ]}.

(** The rows of the two records above: Monday 1 January 2024, 3 minutes
    at 10:00 and half a minute at 11:30. *)
Definition event_a : event := Event (Timestamp_ 2024 1 1 10 0) "A" "T1" 180000.
Definition event_b : event := Event (Timestamp_ 2024 1 1 11 30) "B" "T2" 30000.

(** Two tracks played once each, "T2" first, and the same rows in the
    other order. *)
Definition event_c : event := Event (Timestamp_ 2024 1 1 9 0) "B" "T2" 180000.
Definition event_d : event := Event (Timestamp_ 2024 1 1 9 5) "A" "T1" 180000.

(** A podcast frame: only its [minutesPlayed] column is read. *)
Definition podcasts : DataFrame := {[ "minutesPlayed" := ColFloat [] ]}.

(** The module-level frames for: the two records above; the first of
    them alone; the two tied tracks in either row order; no rows. *)
Definition globals_two : globals := Globals (frame_of [event_a; event_b]) podcasts.
Definition globals_sparse : globals := Globals (frame_of [event_a]) podcasts.
Definition globals_ties : globals := Globals (frame_of [event_c; event_d]) podcasts.
Definition globals_ties_swapped : globals :=
  Globals (frame_of [event_d; event_c]) podcasts.
Definition globals_empty : globals := Globals (frame_of []) podcasts.

End Samples.

(* ===================================================================== *)
(** ** The module-level statements of the script *)
(* ===================================================================== *)

Module Toplevel.
Import Loader.

(** The paths of lines 42 to 44. *)
Definition podcast_path : string := "sampledata/StreamingHistory_podcast_0.json".
Definition library_path : string := "sampledata/YourLibrary.json".
Definition wrapped_path : string := "sampledata/Wrapped2024.json".

(** The f-strings of lines 45 and 47. *)
Definition success_line (n : nat) : string :=
  "All data files loaded successfully! Total music entries: " +:+ pretty n.

Definition data_error_line (e : exn) : string :=
  "Error loading data: " +:+ exn_str e.

(** What the module-level statements run in: the state of the loader
    (file system, paths opened, lines printed) and the four names the
    [try] of lines 40 to 47 binds, [None] while a name is unbound. *)
Record world := World {
  io : state;
  music_history : option (list json);
  podcast_history : option json;
  library : option json;
  wrapped : option json
}.

(** A call of the loader at module level. *)
Definition on_io {A} (m : M state A) : M world A :=
  λ w, match m (io w) with
       | (st, r) =>
           (World st (music_history w) (podcast_history w) (library w)
                  (wrapped w), r)
       end.

(** The four assignments. *)
Definition bind_music_history (v : list json) : M world unit :=
  λ w, (World (io w) (Some v) (podcast_history w) (library w) (wrapped w), Ok ()).

Definition bind_podcast_history (v : json) : M world unit :=
  λ w, (World (io w) (music_history w) (Some v) (library w) (wrapped w), Ok ()).

Definition bind_library (v : json) : M world unit :=
  λ w, (World (io w) (music_history w) (podcast_history w) (Some v) (wrapped w), Ok ()).

Definition bind_wrapped (v : json) : M world unit :=
  λ w, (World (io w) (music_history w) (podcast_history w) (library w) (Some v), Ok ()).

(** Lines 41 to 45, from the point where [load_all_music_history] has
    returned [r]. *)
Definition try_body (r : outcome (list json)) : M world unit :=
  let! music := lift r in
  exec bind_music_history music then
  let! podcast := on_io (load_json podcast_path) in
  exec bind_podcast_history podcast then
  let! lib := on_io (load_json library_path) in
  exec bind_library lib then
  let! wrap := on_io (load_json wrapped_path) in
  exec bind_wrapped wrap then
  on_io (print (success_line (length music))).

(** Lines 40 to 47: the [try] with its handler, which catches every
    exception of the body and prints it.  [None] when the fuel given to
    the loop of [load_all_music_history] runs out. *)
Definition load_data (fuel : nat) (files : gmap string file)
  : option (world * outcome unit) :=
  match load_all_music_history fuel files with
  | None => None
  | Some (st, r) =>
      Some match try_body r (World st None None None None) with
           | (w, Raise e) => on_io (print (data_error_line e)) w
           | (w, r') => (w, r')
           end
  end.

(** How a run of the script ends: with the two sets of summaries
    computed, or with a traceback.  Besides the exceptions of the calls,
    reading a name that the [try] did not get to bind raises
    [NameError]; no handler is around at that point. *)
Inductive failure :=
  | Exception (e : exn)
  | NameError (name : string).

Inductive ending :=
  | Finished (stats : overall_stats) (patterns : listening_patterns)
  | Traceback (f : failure)
  | NotModelled.

Definition of_outcome {A} (o : outcome A) (k : A → ending) : ending :=
  match o with
  | Ok a => k a
  | Raise e => Traceback (Exception e)
  | Unmodelled => NotModelled
  end.

Definition read_name {A} (name : string) (v : option A) (k : A → ending)
  : ending :=
  match v with
  | Some a => k a
  | None => Traceback (NameError name)
  end.

(** [history_to_df] on what [json.load] returned: a list of records is
    described. *)
Definition history_to_df_value (x : json) : outcome DataFrame :=
  match x with
  | JArr items => history_to_df items
  | _ => Unmodelled
  end.

(** Lines 58, 59, 159 and 160, without the drawing. *)
Definition analyse (w : world) : ending :=
  read_name "music_history" (music_history w) (λ music,
  of_outcome (history_to_df music) (λ music_df,
  read_name "podcast_history" (podcast_history w) (λ podcast,
  of_outcome (history_to_df_value podcast) (λ podcast_df,
  let '(g, r) := plot_overall_stats (Globals music_df podcast_df) in
  of_outcome r (λ stats,
  of_outcome (snd (plot_listening_patterns g)) (λ patterns,
  Finished stats patterns)))))).

(** The script. *)
Definition script (fuel : nat) (files : gmap string file)
  : option (world * ending) :=
  match load_data fuel files with
  | None => None
  | Some (w, Ok _) => Some (w, analyse w)
  | Some (w, Raise e) => Some (w, Traceback (Exception e))
  | Some (w, Unmodelled) => Some (w, NotModelled)
  end.

End Toplevel.

(* ===================================================================== *)
(** ** The arithmetic of the script: binary64 *)
(* ===================================================================== *)

Module Binary64.







End Binary64.

(* ===================================================================== *)
(** ** Measures of frames and summaries *)
(* ===================================================================== *)

Module Measures.

(** [len(column)]. *)
Definition column_length (c : column) : nat :=
  match c with
  | ColStr l => length l
  | ColInt l => length l
  | ColFloat l => length l
  | ColTime l => length l
  | ColDate l => length l
  end.

(** The rows of a given artist and the rows of a given track. *)
Definition by_artist (a : string) (evs : list event) : list event :=
  filter (λ e, artistName e = a) evs.

Definition by_track (t : string) (evs : list event) : list event :=
  filter (λ e, trackName e = t) evs.

End Measures.

(* ===================================================================== *)
(** ** More sample inputs *)
(* ===================================================================== *)

Module Fixtures.
Import Loader Toplevel Samples.

(** One record of the podcast export. *)
Definition episode : json :=
  JObj [("endTime", JStr "2024-01-02 08:15");
        ("podcastName", JStr "P");
        ("episodeName", JStr "E");
        ("msPlayed", JInt 600000)].

(** The four files of a complete export: two music shards, the podcast
    history, the library and the wrapped summary. *)
Definition files_all : gmap string file :=
  <[podcast_path := FileJson (JArr [episode])]>
  (<[library_path := FileJson (JObj [])]>
  (<[wrapped_path := FileJson (JObj [])]> files_two)).



(** The same export without the library and the wrapped summary. *)
Definition files_no_library : gmap string file :=
  <[podcast_path := FileJson (JArr [episode])]> files_two.

(** The normalised frame of the podcast history above. *)
Definition podcast_frame : DataFrame :=
  <["minutesPlayed" := ColFloat [inject_Z 600000 / inject_Z 60000]%Q]>
  (<["date" := ColDate [Date_ 2024 1 2]]>
  (<["endTime" := ColTime [Timestamp_ 2024 1 2 8 15]]>
  (<["podcastName" := ColStr ["P"]]>
  (<["episodeName" := ColStr ["E"]]>
  (<["msPlayed" := ColInt [600000%Z]]> ∅))))).

(** Shard 0, and a shard 1 that holds one record, not an array of
    records. *)
Definition files_bare_record : gmap string file :=
  {[ shard_path 0 := FileJson (JArr shard_a);
     shard_path 1 := FileJson (to_json play_b) ]}.

(** Shard 0, and a shard 1 that holds [null]. *)
Definition files_null : gmap string file :=
  {[ shard_path 0 := FileJson (JArr shard_a);
     shard_path 1 := FileJson JNull ]}.

End Fixtures.

(* ===================================================================== *)
(** ** Shard ingestion: what the loop returns *)
(* ===================================================================== *)

Module LoaderSpec.
Import Loader Samples.

(** *** One iteration *)

Lemma iteration_loaded st recs :
  fs st !! shard_path (file_index st) = Some (FileJson (JArr recs)) →
  iteration st = (after_shard st recs, Continue).
Proof.
  intros Hf. unfold iteration, try_block, bind, load_json. rewrite Hf.
  reflexivity.
Qed.

Lemma iteration_missing st :
  fs st !! shard_path (file_index st) = None →
  iteration st =
    (State (fs st) (opened st ++ [shard_path (file_index st)]) (stdout st)
           (all_music_data st) (file_index st), Break).
Proof.
  intros Hf. unfold iteration, try_block, bind, load_json. rewrite Hf.
  reflexivity.
Qed.

Lemma iteration_failed st e :
  fs st !! shard_path (file_index st) = Some (FileBad e) →
  exn_cls e ≠ FileNotFoundError →
  iteration st =
    (State (fs st) (opened st ++ [shard_path (file_index st)])
           (stdout st ++ [error_line (shard_path (file_index st)) e])
           (all_music_data st) (file_index st), Break).
Proof.
  intros Hf Hcls. unfold iteration, try_block, bind, load_json. rewrite Hf.
  simpl. destruct (decide _) as [|_]; [done|]. reflexivity.
Qed.

(** A shard that parses to a value that cannot be iterated ([null], a
    boolean, a number) makes [extend] raise; the second handler catches
    that as well. *)
Lemma iteration_not_iterable st content e :
  fs st !! shard_path (file_index st) = Some (FileJson content) →
  py_iter content = Raise e →
  iteration st =
    (State (fs st) (opened st ++ [shard_path (file_index st)])
           (stdout st ++ [error_line (shard_path (file_index st)) e])
           (all_music_data st) (file_index st), Break).
Proof.
  intros Hf Hit.
  unfold iteration, try_block, bind, load_json, extend, bind, lift.
  rewrite Hf. simpl. rewrite Hit.
  assert (exn_cls e = TypeError) as Hc by (destruct content; simplify_eq/=; done).
  destruct (decide _) as [Heq|_]; [congruence|]. reflexivity.
Qed.

(** *** The shards loaded before the loop is left *)

Lemma after_shards_fs st shards : fs (after_shards st shards) = fs st.
Proof.
  revert st. induction shards as [|r rs IH]; intros st; [done|].
  simpl. by rewrite IH.
Qed.

Lemma after_shards_file_index st shards :
  file_index (after_shards st shards) = file_index st + length shards.
Proof.
  revert st. induction shards as [|r rs IH]; intros st; simpl; [lia|].
  rewrite IH. simpl. lia.
Qed.

Lemma after_shards_data st shards :
  all_music_data (after_shards st shards) = all_music_data st ++ concat shards.
Proof.
  revert st. induction shards as [|r rs IH]; intros st; simpl.
  - by rewrite app_nil_r.
  - rewrite IH. simpl. by rewrite <-app_assoc.
Qed.

Lemma after_shards_opened st shards :
  opened (after_shards st shards) =
  opened st ++ (shard_path <$> seq (file_index st) (length shards)).
Proof.
  revert st. induction shards as [|r rs IH]; intros st; simpl.
  - by rewrite app_nil_r.
  - rewrite IH. simpl. by rewrite <-app_assoc.
Qed.

Lemma after_shards_stdout_length st shards :
  length (stdout (after_shards st shards)) = length (stdout st) + length shards.
Proof.
  revert st. induction shards as [|r rs IH]; intros st; simpl; [lia|].
  rewrite IH. simpl. rewrite length_app. simpl. lia.
Qed.

Lemma shards_present_cons files first recs shards :
  shards_present files first (recs :: shards) →
  files !! shard_path first = Some (FileJson (JArr recs)) ∧
  shards_present files (S first) shards.
Proof.
  intros H. split.
  - specialize (H 0 recs eq_refl). by rewrite Nat.add_0_r in H.
  - intros i r Hi. specialize (H (S i) r Hi).
    by replace (S first + i) with (first + S i) by lia.
Qed.

Lemma while_true_after_shards shards : ∀ st fuel,
  shards_present (fs st) (file_index st) shards →
  while_true (length shards + fuel) st = while_true fuel (after_shards st shards).
Proof.
  induction shards as [|recs shards IH]; intros st fuel Hp; [done|].
  apply shards_present_cons in Hp as [Hhd Htl].
  simpl. rewrite (iteration_loaded _ _ Hhd). apply IH. exact Htl.
Qed.

Lemma load_stops_missing files shards fuel :
  shards_present files 0 shards →
  files !! shard_path (length shards) = None →
  length shards < fuel →
  load_all_music_history fuel files =
    Some (final_state files shards [], Ok (concat shards)).
Proof.
  intros Hp Hgap Hfuel. unfold load_all_music_history.
  replace fuel with (length shards + S (fuel - S (length shards))) by lia.
  rewrite while_true_after_shards by done.
  set (st := after_shards (initial files) shards).
  assert (file_index st = length shards) as Hi
    by (unfold st; by rewrite after_shards_file_index).
  assert (fs st = files) as Hfs by (unfold st; by rewrite after_shards_fs).
  assert (all_music_data st = concat shards) as Hd
    by (unfold st; by rewrite after_shards_data).
  simpl. rewrite iteration_missing by (by rewrite Hfs, Hi).
  unfold final_state. fold st. simpl.
  by rewrite Hfs, Hi, Hd, app_nil_r.
Qed.

Lemma load_stops_failed files shards e fuel :
  shards_present files 0 shards →
  files !! shard_path (length shards) = Some (FileBad e) →
  exn_cls e ≠ FileNotFoundError →
  length shards < fuel →
  load_all_music_history fuel files =
    Some (final_state files shards [error_line (shard_path (length shards)) e],
          Ok (concat shards)).
Proof.
  intros Hp Hbad Hcls Hfuel. unfold load_all_music_history.
  replace fuel with (length shards + S (fuel - S (length shards))) by lia.
  rewrite while_true_after_shards by done.
  set (st := after_shards (initial files) shards).
  assert (file_index st = length shards) as Hi
    by (unfold st; by rewrite after_shards_file_index).
  assert (fs st = files) as Hfs by (unfold st; by rewrite after_shards_fs).
  assert (all_music_data st = concat shards) as Hd
    by (unfold st; by rewrite after_shards_data).
  simpl. rewrite (iteration_failed st e) by (by rewrite ?Hfs, ?Hi).
  unfold final_state. fold st. simpl.
  by rewrite Hfs, Hi, Hd.
Qed.

(** *** Paths of different shards differ *)

Lemma string_length_app (s t : string) :
  String.length (s +:+ t) = String.length s + String.length t.
Proof. induction s as [|c s IH]; simpl; [done|]. by rewrite IH. Qed.

Lemma string_app_inj_r (t s1 s2 : string) : s1 +:+ t = s2 +:+ t → s1 = s2.
Proof.
  revert s2. induction s1 as [|c s1 IH]; intros [|c2 s2] Heq.
  - done.
  - apply (f_equal String.length) in Heq.
    rewrite (string_length_app "" t), (string_length_app (String c2 s2) t) in Heq.
    simpl in Heq. lia.
  - apply (f_equal String.length) in Heq.
    rewrite (string_length_app "" t), (string_length_app (String c s1) t) in Heq.
    simpl in Heq. lia.
  - simpl in Heq. injection Heq as -> Heq. f_equal. by apply IH.
Qed.

Lemma shard_path_inj i j : shard_path i = shard_path j → i = j.
Proof.
  unfold shard_path. intros Heq.
  apply (inj (String.append _)) in Heq.
  apply string_app_inj_r in Heq.
  by apply (inj pretty) in Heq.
Qed.

Lemma final_state_not_opened files shards lines j :
  length shards < j →
  shard_path j ∉ opened (final_state files shards lines).
Proof.
  intros Hj. unfold final_state. simpl.
  rewrite after_shards_opened. simpl.
  intros [Hin|Hin]%elem_of_app.
  - apply list_elem_of_fmap in Hin as [i [Heq Hin]].
    apply shard_path_inj in Heq as <-.
    apply elem_of_seq in Hin. lia.
  - apply list_elem_of_singleton in Hin.
    apply shard_path_inj in Hin. lia.
Qed.

(** *** The claims on ingestion *)

(** C1.  When the shards numbered 0 .. k-1 exist and parse to arrays and
    index k does not exist, [load_all_music_history] returns (given fuel
    for its k+1 iterations) the concatenation of the k arrays, in shard
    order and, within a shard, in file order, nothing dropped or merged.
    For k = 0 that is the empty list, returned normally. *)
Theorem load_all_concatenates files shards fuel :
  shards_present files 0 shards →
  files !! shard_path (length shards) = None →
  length shards < fuel →
  snd <$> load_all_music_history fuel files = Some (Ok (concat shards)).
Proof.
  intros Hp Hgap Hfuel. by rewrite (load_stops_missing _ shards).
Qed.

Lemma load_all_concatenates_witness :
  files_two !! shard_path 2 = None ∧
  snd <$> load_all_music_history 3 files_two = Some (Ok (shard_a ++ shard_b)).
Proof.
  split; [by vm_compute|].
  apply (load_all_concatenates files_two [shard_a; shard_b] 3).
  - intros [|[|i]] recs Hi; simplify_eq/=; by vm_compute.
  - by vm_compute.
  - simpl. lia.
Defined.

(** With index 0 missing the result is the empty list and no exception
    leaves the function. *)
Lemma load_all_index_0_missing files fuel :
  files !! shard_path 0 = None →
  0 < fuel →
  snd <$> load_all_music_history fuel files = Some (Ok []).
Proof.
  intros Hgap Hfuel. by rewrite (load_stops_missing files []).
Qed.

(** C2.  The loop stops at the first index that does not exist: the
    result holds the shards before it, and no file with a higher index
    is opened, whether or not it exists. *)
Theorem load_stops_at_first_gap files shards fuel j :
  shards_present files 0 shards →
  files !! shard_path (length shards) = None →
  length shards < fuel →
  length shards < j →
  ∃ st, load_all_music_history fuel files = Some (st, Ok (concat shards)) ∧
        shard_path j ∉ opened st.
Proof.
  intros Hp Hgap Hfuel Hj. eexists. split.
  - by apply load_stops_missing.
  - by apply final_state_not_opened.
Qed.

Lemma load_stops_at_first_gap_witness :
  (is_Some (files_gap !! shard_path 2) ∧
   ∃ st, load_all_music_history 2 files_gap = Some (st, Ok shard_a) ∧
         shard_path 2 ∉ opened st) ∧
  (is_Some (files_only_1 !! shard_path 1) ∧
   ∃ st, load_all_music_history 1 files_only_1 = Some (st, Ok []) ∧
         shard_path 1 ∉ opened st).
Proof.
  split; (split; [vm_compute; eauto|]).
  - destruct (load_stops_at_first_gap files_gap [shard_a] 2 2) as [st H].
    + intros [|i] recs Hi; simplify_eq/=; by vm_compute.
    + by vm_compute.
    + simpl. lia.
    + simpl. lia.
    + exists st. exact H.
  - apply (load_stops_at_first_gap files_only_1 [] 1 1).
    + intros i recs Hi. done.
    + by vm_compute.
    + simpl. lia.
    + simpl. lia.
Defined.

(** C5.  When the shards 0 .. k-1 load and opening or parsing shard k
    raises anything but [FileNotFoundError], the function still returns
    normally: the result is what the k earlier shards gave, the index
    stays at k, and the last line printed names the file and the error. *)
Theorem load_halts_on_failure files shards e fuel :
  shards_present files 0 shards →
  files !! shard_path (length shards) = Some (FileBad e) →
  exn_cls e ≠ FileNotFoundError →
  length shards < fuel →
  ∃ st, load_all_music_history fuel files = Some (st, Ok (concat shards)) ∧
        file_index st = length shards ∧
        last (stdout st) = Some (error_line (shard_path (length shards)) e).
Proof.
  intros Hp Hbad Hcls Hfuel. eexists. split; [|split].
  - by apply load_stops_failed.
  - done.
  - unfold final_state. simpl. by rewrite last_snoc.
Qed.

Lemma load_halts_on_failure_witness :
  ∃ st, load_all_music_history 2 files_bad = Some (st, Ok shard_a) ∧
        file_index st = 1 ∧
        last (stdout st) =
          Some "Error loading sampledata/StreamingHistory_music_1.json: Expecting value: line 1 column 1 (char 0)".
Proof.
  apply (load_halts_on_failure files_bad [shard_a] decode_error 2).
  - intros [|i] recs Hi; simplify_eq/=; by vm_compute.
  - by vm_compute.
  - done.
  - simpl. lia.
Defined.

End LoaderSpec.

(* ===================================================================== *)
(** ** Facts about the pandas operations *)
(* ===================================================================== *)

Module PandasFacts.

(** *** Grouping *)

Section groupby_facts.
Context {K : Type} `{EqDecision K}.
Context (R : relation K) `{∀ x y, Decision (R x y)}.

Lemma group_keys_perm (keys : list K) : group_keys R keys ≡ₚ remove_dups keys.
Proof. apply merge_sort_Permutation. Qed.

Lemma group_keys_NoDup (keys : list K) : NoDup (group_keys R keys).
Proof. rewrite group_keys_perm. apply NoDup_remove_dups. Qed.

Lemma elem_of_group_keys (keys : list K) (k : K) :
  k ∈ group_keys R keys ↔ k ∈ keys.
Proof. rewrite group_keys_perm. apply elem_of_remove_dups. Qed.

Lemma group_keys_sorted `{!Transitive R, !Total R} (keys : list K) :
  StronglySorted R (group_keys R keys).
Proof. apply StronglySorted_merge_sort; apply _. Qed.

Lemma groupby_sum_keys (keys : list K) (vals : list Q) :
  (groupby_sum R keys vals).*1 = group_keys R keys.
Proof.
  unfold groupby_sum. rewrite <-list_fmap_compose.
  induction (group_keys R keys) as [|k l IH]; [done|]. simpl. f_equal. exact IH.
Qed.

Lemma groupby_count_keys {V} (keys : list K) (vals : list V) :
  (groupby_count R keys vals).*1 = group_keys R keys.
Proof.
  unfold groupby_count. rewrite <-list_fmap_compose.
  induction (group_keys R keys) as [|k l IH]; [done|]. simpl. f_equal. exact IH.
Qed.

Lemma rows_of_cons {V} (k k0 : K) (v0 : V) (rows : list (K * V)) :
  rows_of k ((k0, v0) :: rows) =
  if decide (k0 = k) then v0 :: rows_of k rows else rows_of k rows.
Proof.
  unfold rows_of. rewrite filter_cons. simpl.
  destruct (decide (k0 = k)); done.
Qed.

(** The values of the group [k], when keys and values are both read off
    the same rows. *)
Lemma group_rows_fmap {A V} (f : A → K) (g : A → V) (k : K) (l : list A) :
  group_rows k (f <$> l) (g <$> l) = g <$> filter (λ a, f a = k) l.
Proof.
  unfold group_rows. induction l as [|a l IH]; [done|].
  rewrite !fmap_cons. cbn [zip zip_with]. rewrite rows_of_cons, filter_cons.
  destruct (decide (f a = k)); [rewrite fmap_cons|]; by rewrite <-IH.
Qed.

Lemma groupby_sum_rows {A} (f : A → K) (g : A → Q) (l : list A) :
  groupby_sum R (f <$> l) (g <$> l) =
  (λ k, (k, Qsum (g <$> filter (λ a, f a = k) l))) <$> group_keys R (f <$> l).
Proof.
  unfold groupby_sum. apply list_fmap_ext. intros _ k _.
  by rewrite group_rows_fmap.
Qed.

Lemma groupby_count_rows {A V} (f : A → K) (g : A → V) (l : list A) :
  groupby_count R (f <$> l) (g <$> l) =
  (λ k, (k, length (filter (λ a, f a = k) l))) <$> group_keys R (f <$> l).
Proof.
  unfold groupby_count. apply list_fmap_ext. intros _ k _.
  by rewrite group_rows_fmap, length_fmap.
Qed.

(** Over distinct keys, a row put in front of the group of its key is
    put in front of one group. *)
Lemma concat_cons_at {A} (k0 : K) (a : A) (g : K → list A) (ks : list K) :
  NoDup ks → k0 ∈ ks →
  concat ((λ k, if decide (k0 = k) then a :: g k else g k) <$> ks) ≡ₚ
  a :: concat (g <$> ks).
Proof.
  induction 1 as [|k ks Hk Hnd IH]; intros Hin; [by apply elem_of_nil in Hin|].
  rewrite !fmap_cons. cbn [concat]. destruct (decide (k0 = k)) as [<-|Hne].
  - assert (((λ k, if decide (k0 = k) then a :: g k else g k) <$> ks) = g <$> ks)
      as ->; [|done].
    apply list_fmap_ext. intros i k Hin'. apply list_elem_of_lookup_2 in Hin'.
    destruct (decide (k0 = k)) as [<-|]; [done|reflexivity].
  - apply elem_of_cons in Hin as [?|Hin]; [done|].
    rewrite IH by done. by rewrite Permutation_middle.
Qed.

(** The groups of distinct keys that cover the keys of all rows hold
    every row once. *)
Lemma groups_partition {A} (f : A → K) (l : list A) (ks : list K) :
  NoDup ks → (∀ a, a ∈ l → f a ∈ ks) →
  concat ((λ k, filter (λ a, f a = k) l) <$> ks) ≡ₚ l.
Proof.
  intros Hnd. induction l as [|a l IH]; intros Hin.
  - clear. induction ks as [|k ks IH]; [done|]. rewrite fmap_cons. exact IH.
  - rewrite (list_fmap_ext _
      (λ k, if decide (f a = k) then a :: filter (λ a, f a = k) l
            else filter (λ a, f a = k) l) ks).
    + rewrite concat_cons_at by (done || apply Hin; left).
      rewrite IH; [done|]. intros a' Ha'. apply Hin. by right.
    + intros _ k _. rewrite filter_cons. by destruct (decide (f a = k)).
Qed.

End groupby_facts.


(** *** Sorting by value *)

Global Instance Qle_trans : Transitive Qle.
Proof. intros x y z. apply Qle_trans. Qed.

Global Instance Qle_total : Total Qle.
Proof.
  intros x y. destruct (Qlt_le_dec x y) as [Hlt|Hle]; [left|by right].
  by apply Qlt_le_weak.
Qed.

Section sort_values_facts.
Context {K V : Type} (le : relation V) `{∀ x y, Decision (le x y)}.
Context `{!Transitive le, !Total le}.

Lemma insert_asc_perm (a : K * V) (s : list (K * V)) :
  insert_asc le a s ≡ₚ a :: s.
Proof.
  induction s as [|b s IH]; simpl; [done|].
  destruct (decide (le a.2 b.2)); [done|].
  rewrite IH. apply Permutation_swap.
Qed.

Lemma sort_asc_perm (s : list (K * V)) : sort_asc le s ≡ₚ s.
Proof.
  induction s as [|a s IH]; simpl; [done|].
  by rewrite insert_asc_perm, IH.
Qed.

Lemma sort_values_desc_perm (s : list (K * V)) : sort_values_desc le s ≡ₚ s.
Proof.
  unfold sort_values_desc. by rewrite reverse_Permutation, sort_asc_perm,
    reverse_Permutation.
Qed.

Lemma insert_asc_sorted (a : K * V) (s : list (K * V)) :
  StronglySorted (by_value le) s → StronglySorted (by_value le) (insert_asc le a s).
Proof.
  induction 1 as [|b s Hs IH Hb]; simpl.
  - repeat constructor.
  - destruct (decide (le a.2 b.2)) as [Hab|Hab].
    + constructor; [by constructor|]. constructor; [done|].
      eapply Forall_impl; [exact Hb|]. intros c Hbc.
      unfold by_value in *. by etrans.
    + constructor; [done|]. rewrite insert_asc_perm. constructor; [|done].
      unfold by_value. by destruct (total le a.2 b.2).
Qed.

Lemma sort_asc_sorted (s : list (K * V)) : StronglySorted (by_value le) (sort_asc le s).
Proof.
  induction s as [|a s IH]; simpl; [constructor|]. by apply insert_asc_sorted.
Qed.

Lemma StronglySorted_reverse {A} (R : relation A) (l : list A) :
  StronglySorted R l → StronglySorted (flip R) (reverse l).
Proof.
  induction 1 as [|x l Hl IH Hx]; [constructor|].
  rewrite reverse_cons. apply StronglySorted_app_2; [|done|repeat constructor].
  intros y z Hy ->%list_elem_of_singleton.
  rewrite elem_of_reverse in Hy. rewrite Forall_forall in Hx. by apply Hx.
Qed.

Lemma StronglySorted_take {A} (R : relation A) (n : nat) (l : list A) :
  StronglySorted R l → StronglySorted R (take n l).
Proof.
  intros Hl. revert n. induction Hl as [|x l Hl IH Hx]; intros [|n]; simpl;
    try constructor; [done|].
  rewrite Forall_forall in Hx |- *. intros y Hy. apply Hx.
  by apply (subseteq_take n l).
Qed.

(** The result of [sort_values(ascending=False)] is non-increasing. *)
Lemma sort_values_desc_sorted (s : list (K * V)) :
  StronglySorted (flip (by_value le)) (sort_values_desc le s).
Proof. apply StronglySorted_reverse, sort_asc_sorted. Qed.

Lemma head_sort_values_desc_sorted (n : nat) (s : list (K * V)) :
  StronglySorted (flip (by_value le)) (head n (sort_values_desc le s)).
Proof. apply StronglySorted_take, sort_values_desc_sorted. Qed.

Lemma head_sort_values_desc_submseteq (n : nat) (s : list (K * V)) :
  head n (sort_values_desc le s) ⊆+ s.
Proof.
  unfold head. etrans; [apply sublist_submseteq, sublist_take|].
  by rewrite sort_values_desc_perm.
Qed.

(** An entry that [head] cuts off is not above any entry it keeps. *)
Lemma head_sort_values_desc_dominates (n : nat) (s : list (K * V))
    (a b : K * V) :
  a ∈ head n (sort_values_desc le s) → b ∈ s →
  b ∉ head n (sort_values_desc le s) → le b.2 a.2.
Proof.
  intros Ha Hb Hnb. unfold head in *.
  pose proof (sort_values_desc_sorted s) as Hs.
  rewrite <-(take_drop n (sort_values_desc le s)) in Hs.
  apply (StronglySorted_app_1_elem_of _ _ _ a b Hs Ha).
  rewrite <-(sort_values_desc_perm s), <-(take_drop n (sort_values_desc le s)) in Hb.
  apply elem_of_app in Hb as [Hb|Hb]; done.
Qed.

Lemma head_sort_values_desc_length (n : nat) (s : list (K * V)) :
  length (head n (sort_values_desc le s)) = n `min` length s.
Proof.
  unfold head. rewrite length_take. f_equal.
  apply Permutation_length, sort_values_desc_perm.
Qed.

Lemma head_sort_values_desc_keys (n : nat) (s : list (K * V)) :
  NoDup s.*1 → NoDup (head n (sort_values_desc le s)).*1.
Proof.
  intros Hnd. unfold head. rewrite fmap_take.
  rewrite <-(sort_values_desc_perm s) in Hnd.
  rewrite <-(take_drop n (sort_values_desc le s).*1) in Hnd.
  by apply NoDup_app in Hnd as [? _].
Qed.

End sort_values_facts.

(** *** Dates *)

Global Instance date_le_trans : Transitive date_le.
Proof. intros [] [] []. unfold date_le. simpl. lia. Qed.

Global Instance date_le_total : Total date_le.
Proof. intros [] []. unfold date_le. simpl. lia. Qed.

Lemma head_length {A} (n : nat) (s : list A) : length (head n s) ≤ n.
Proof. unfold head. rewrite length_take. lia. Qed.

(** *** Selection by mask *)

Lemma mask_select_cons {A} (b : bool) (mask : list bool) (x : A) (l : list A) :
  mask_select (b :: mask) (x :: l) =
  if b then x :: mask_select mask l else mask_select mask l.
Proof.
  unfold mask_select. simpl. rewrite filter_cons. simpl.
  destruct b; case_decide; done.
Qed.

Lemma mask_select_fmap {A B} (P : A → Prop) `{∀ x, Decision (P x)}
    (f : A → B) (l : list A) :
  mask_select ((λ x, bool_decide (P x)) <$> l) (f <$> l) = f <$> filter P l.
Proof.
  induction l as [|x l IH]; [done|].
  rewrite !fmap_cons, mask_select_cons, filter_cons, IH.
  destruct (decide (P x)) as [HP|HP].
  - by rewrite bool_decide_eq_true_2.
  - by rewrite bool_decide_eq_false_2.
Qed.

(** *** Looking a label up in a grouped summary *)

Lemma assoc_cons {V} (k k' : string) (v : V) (l : list (string * V)) :
  assoc k ((k', v) :: l) = if decide (k' = k) then Some v else assoc k l.
Proof. reflexivity. Qed.

Lemma assoc_fmap_key {V} (f : string → V) (k : string) (l : list string) :
  assoc k ((λ k, (k, f k)) <$> l) = if decide (k ∈ l) then Some (f k) else None.
Proof.
  induction l as [|k' l IH].
  - simpl. destruct (decide (k ∈ [])) as [Hin|]; [by apply elem_of_nil in Hin|done].
  - rewrite fmap_cons, assoc_cons, IH.
    destruct (decide (k' = k)) as [->|Hne].
    + rewrite decide_True; [done|left].
    + destruct (decide (k ∈ l)) as [Hin|Hin].
      * rewrite decide_True; [done|by right].
      * rewrite decide_False; [done|]. intros [?|?]%elem_of_cons; done.
Qed.

Lemma reindex_labels (labels : list string) (s : list (string * Q)) :
  (reindex labels s).*1 = labels.
Proof.
  unfold reindex. rewrite <-list_fmap_compose.
  induction labels as [|l labels IH]; [done|]. simpl. f_equal. exact IH.
Qed.

(** A label of [reindex] carries the group sum when the label occurs
    among the keys, and NaN otherwise. *)
Lemma reindex_groupby_sum (labels keys : list string) (vals : list Q) :
  reindex labels (groupby_sum String.le keys vals) =
  (λ l, (l, if decide (l ∈ keys)
            then Fin (Qsum (group_rows l keys vals)) else NaN)) <$> labels.
Proof.
  unfold reindex. apply list_fmap_ext. intros _ l _. f_equal.
  unfold groupby_sum. rewrite assoc_fmap_key.
  destruct (decide (l ∈ group_keys _ keys)) as [Hin|Hin];
    rewrite elem_of_group_keys in Hin.
  - by rewrite decide_True.
  - by rewrite decide_False.
Qed.


End PandasFacts.

(* ===================================================================== *)
(** ** Normalisation and the summaries *)
(* ===================================================================== *)

Module AnalysisSpec.
Import PandasFacts Samples Fixtures.

Lemma holds_frame_of (evs : list event) : holds (frame_of evs) evs.
Proof. unfold holds, frame_of. repeat split; by simplify_map_eq. Qed.

(** *** Running the two functions on a normalised frame *)

Lemma plot_overall_stats_run (df pdf : DataFrame) (evs : list event) (pm : list Q) :
  holds df evs →
  pdf !! "minutesPlayed" = Some (ColFloat pm) →
  plot_overall_stats (Globals df pdf) =
    (Globals df pdf,
     Ok (OverallStats
           [("Music", Qsum (minutesPlayed <$> evs)); ("Podcasts", Qsum pm)]
           (head 10 (sort_values_desc Qle
              (groupby_sum String.le (artistName <$> evs) (minutesPlayed <$> evs))))
           (prod_map date_to_datetime id <$>
              groupby_sum date_le (date <$> evs) (minutesPlayed <$> evs))
           (head 10 (sort_values_desc le
              (groupby_count String.le (trackName <$> evs) (minutesPlayed <$> evs)))))).
Proof.
  intros (Ht & Ha & Hk & Hm & Hd & Hf) Hp.
  cbv [plot_overall_stats bind music podcast lift getitem ret music_df podcast_df].
  rewrite Hf, Hp, Ha, Hd, Hk. reflexivity.
Qed.

Lemma plot_listening_patterns_run (df pdf : DataFrame) (evs : list event) :
  holds df evs →
  let minutes := minutesPlayed <$> evs in
  let ts := endTime <$> evs in
  let df' :=
    <["month" := ColStr (strftime_Y_m <$> ts)]>
    (<["day_of_week" := ColStr (day_name <$> ts)]>
    (<["hour" := ColInt (dt_hour <$> ts)]> df)) in
  plot_listening_patterns (Globals df pdf) =
    (Globals df' pdf,
     Ok (ListeningPatterns
           (groupby_sum Z.le (dt_hour <$> ts) minutes)
           (reindex day_order (groupby_sum String.le (day_name <$> ts) minutes))
           (groupby_sum String.le (strftime_Y_m <$> ts) minutes)
           (df_select (gt minutes (1 # 10)) df')
           (mask_select (gt minutes (1 # 10)) minutes))).
Proof.
  intros (Ht & Ha & Hk & Hm & Hd & Hf). intros minutes ts df'.
  cbv [plot_listening_patterns bind music podcast lift getitem ret set_music
       get_music_df music_df podcast_df].
  rewrite Ht. cbv [dt].
  rewrite lookup_insert_eq. cbv [as_int].
  rewrite (lookup_insert_ne _ "hour" "minutesPlayed") by done.
  rewrite Hf. cbv [as_float].
  rewrite (lookup_insert_ne _ "hour" "endTime") by done. rewrite Ht.
  rewrite lookup_insert_eq. cbv [as_str].
  rewrite (lookup_insert_ne _ "day_of_week" "minutesPlayed") by done.
  rewrite (lookup_insert_ne _ "hour" "minutesPlayed") by done. rewrite Hf.
  rewrite (lookup_insert_ne _ "day_of_week" "endTime") by done.
  rewrite (lookup_insert_ne _ "hour" "endTime") by done. rewrite Ht.
  rewrite lookup_insert_eq.
  rewrite (lookup_insert_ne _ "month" "minutesPlayed") by done.
  rewrite (lookup_insert_ne _ "day_of_week" "minutesPlayed") by done.
  rewrite (lookup_insert_ne _ "hour" "minutesPlayed") by done. rewrite Hf.
  unfold df_select. rewrite lookup_fmap.
  rewrite (lookup_insert_ne _ "month" "minutesPlayed") by done.
  rewrite (lookup_insert_ne _ "day_of_week" "minutesPlayed") by done.
  rewrite (lookup_insert_ne _ "hour" "minutesPlayed") by done. rewrite Hf.
  reflexivity.
Qed.


(** *** [pd.DataFrame] on the records of the export *)

Lemma record_keys_export (plays : list play) :
  ∃ ks, record_keys (to_json <$> plays) = Some ks ∧
        (∀ k, k ∈ ks → k ∈ export_keys) ∧
        (plays ≠ [] → ∀ k, k ∈ export_keys → k ∈ ks).
Proof.
  induction plays as [|p plays (ks & Hks & Hsub & Hsup)].
  - exists []. split; [done|]. split; [|done]. intros k Hk. by apply elem_of_nil in Hk.
  - exists (export_keys ++ ks). split; [|split].
    + rewrite fmap_cons. change (record_keys (to_json p :: (to_json <$> plays)))
        with (match record_keys (to_json <$> plays) with
              | Some ks' => Some (export_keys ++ ks')
              | None => None
              end).
      by rewrite Hks.
    + intros k [Hk|Hk]%elem_of_app; [done|by apply Hsub].
    + intros _ k Hk. apply elem_of_app. by left.
Qed.

Lemma strs_of_fmap {A} (f : A → string) (l : list A) :
  strs_of ((λ x, Some (JStr (f x))) <$> l) = Some (f <$> l).
Proof. induction l as [|x l IH]; [done|]. rewrite !fmap_cons. cbn [strs_of]. by rewrite IH. Qed.

Lemma ints_of_fmap {A} (f : A → Z) (l : list A) :
  ints_of ((λ x, Some (JInt (f x))) <$> l) = Some (f <$> l).
Proof. induction l as [|x l IH]; [done|]. rewrite !fmap_cons. cbn [ints_of]. by rewrite IH. Qed.

Lemma infer_column_export (plays : list play) (k : string) :
  plays ≠ [] → k ∈ export_keys →
  infer_column (json_get k <$> (to_json <$> plays)) = Ok (export_column plays k).
Proof.
  intros Hne Hk. rewrite <-list_fmap_compose. unfold infer_column, export_column.
  repeat (apply elem_of_cons in Hk as [->|Hk]); [..|by apply elem_of_nil in Hk].
  - rewrite (list_fmap_ext _ (λ p, Some (JStr (p_endTime p))) plays) by done.
    by rewrite strs_of_fmap.
  - rewrite (list_fmap_ext _ (λ p, Some (JStr (p_artistName p))) plays) by done.
    by rewrite strs_of_fmap.
  - rewrite (list_fmap_ext _ (λ p, Some (JStr (p_trackName p))) plays) by done.
    by rewrite strs_of_fmap.
  - rewrite (list_fmap_ext _ (λ p, Some (JInt (p_msPlayed p))) plays) by done.
    rewrite ints_of_fmap. by destruct plays.
Qed.

Lemma foldr_add_column (data : list json) (c : string → column) (ks : list string) :
  (∀ k, k ∈ ks → infer_column (json_get k <$> data) = Ok (c k)) →
  foldr (add_column data) (Ok ∅) ks = Ok (foldr (λ k m, <[k:=c k]> m) ∅ ks).
Proof.
  induction ks as [|k ks IH]; intros Hc; [done|].
  simpl. rewrite IH by (intros k' Hk'; apply Hc; by right).
  unfold add_column at 1. simpl. rewrite Hc by left. done.
Qed.

Lemma lookup_foldr_insert (c : string → column) (ks : list string) (j : string) :
  (foldr (λ k m, <[k:=c k]> m) (∅ : DataFrame) ks) !! j =
  if decide (j ∈ ks) then Some (c j) else None.
Proof.
  induction ks as [|k ks IH]; cbn [foldr].
  - rewrite lookup_empty. destruct (decide (j ∈ [])) as [Hin|]; [|done].
    by apply elem_of_nil in Hin.
  - destruct (decide (k = j)) as [->|Hne].
    + rewrite lookup_insert_eq. by rewrite decide_True by left.
    + rewrite lookup_insert_ne by done. rewrite IH.
      destruct (decide (j ∈ ks)) as [Hin|Hin].
      * by rewrite decide_True by (by right).
      * rewrite decide_False; [done|]. intros [?|?]%elem_of_cons; done.
Qed.

Lemma pd_DataFrame_export (plays : list play) :
  plays ≠ [] →
  pd_DataFrame (to_json <$> plays) =
    Ok (foldr (λ k m, <[k:=export_column plays k]> m) ∅ export_keys).
Proof.
  intros Hne. unfold pd_DataFrame.
  destruct (record_keys_export plays) as (ks & -> & Hsub & Hsup).
  rewrite (foldr_add_column _ (export_column plays)).
  - f_equal. apply map_eq. intros j. rewrite !lookup_foldr_insert.
    destruct (decide (j ∈ ks)) as [Hin|Hin].
    + by rewrite decide_True by (by apply Hsub).
    + rewrite decide_False; [done|]. intros Hj. apply Hin. by apply Hsup.
  - intros k Hk. apply infer_column_export; [done|by apply Hsub].
Qed.

Lemma pd_DataFrame_nil : pd_DataFrame [] = Ok ∅.
Proof. reflexivity. Qed.


(** *** [history_to_df] *)

Lemma export_frame (plays : list play) :
  foldr (λ k m, <[k:=export_column plays k]> m) (∅ : DataFrame) export_keys =
  <["endTime" := ColStr (p_endTime <$> plays)]>
  (<["artistName" := ColStr (p_artistName <$> plays)]>
  (<["trackName" := ColStr (p_trackName <$> plays)]>
  (<["msPlayed" := ColInt (p_msPlayed <$> plays)]> ∅))).
Proof. reflexivity. Qed.

Lemma to_datetime_all_rows (plays : list play) (evs : list event) :
  Forall2 row_of plays evs →
  to_datetime_all (p_endTime <$> plays) = Ok (endTime <$> evs).
Proof.
  induction 1 as [|p e plays evs (Ht & _) _ IH]; [done|].
  rewrite !fmap_cons. cbn [to_datetime_all]. by rewrite Ht, IH.
Qed.

Lemma rows_fields (plays : list play) (evs : list event) :
  Forall2 row_of plays evs →
  p_artistName <$> plays = artistName <$> evs ∧
  p_trackName <$> plays = trackName <$> evs ∧
  p_msPlayed <$> plays = msPlayed <$> evs.
Proof.
  induction 1 as [|p e plays evs (_ & Ha & Hk & Hm) _ (IHa & IHk & IHm)]; [done|].
  rewrite !fmap_cons, IHa, IHk, IHm, Ha, Hk, Hm. done.
Qed.

(** On a non-empty list of export records whose [endTime] strings are
    in the export layout, [history_to_df] returns the normalised frame
    of their rows. *)
Lemma history_to_df_rows (plays : list play) (evs : list event) :
  plays ≠ [] →
  Forall2 row_of plays evs →
  history_to_df (to_json <$> plays) = Ok (frame_of evs).
Proof.
  intros Hne Hrows. unfold history_to_df.
  rewrite pd_DataFrame_export, export_frame by done. cbn [obind].
  unfold getitem at 1. rewrite lookup_insert_eq. cbn [obind pd_to_datetime].
  rewrite (to_datetime_all_rows plays evs) by done. cbn [obind].
  unfold getitem at 1. rewrite lookup_insert_eq. cbn [obind dt].
  unfold getitem at 1.
  rewrite (lookup_insert_ne _ "date" "msPlayed") by done.
  rewrite (lookup_insert_ne _ "endTime" "msPlayed") by done.
  rewrite (lookup_insert_ne _ "endTime" "msPlayed") by done.
  rewrite (lookup_insert_ne _ "artistName" "msPlayed") by done.
  rewrite (lookup_insert_ne _ "trackName" "msPlayed") by done.
  rewrite lookup_insert_eq. cbn [obind truediv].
  destruct (rows_fields plays evs Hrows) as (-> & -> & ->).
  rewrite insert_insert_eq. unfold frame_of.
  rewrite <-!list_fmap_compose. done.
Qed.

(** On the empty list the frame has no columns and the first column
    access fails. *)
Lemma history_to_df_nil :
  history_to_df [] = Raise (Exn KeyError "'endTime'").
Proof. reflexivity. Qed.


(** *** The claims on normalisation *)

(** C8.  For a non-empty list of export records whose [endTime] strings
    are in the export layout, [history_to_df] returns a frame whose
    [endTime] column holds the parsed timestamps, whose [date] column
    holds the calendar date of each timestamp, and whose [minutesPlayed]
    column holds [msPlayed / 60000] for each record, row by row. *)
Theorem history_to_df_derived_fields (plays : list play) (evs : list event) :
  plays ≠ [] →
  Forall2 row_of plays evs →
  ∃ df, history_to_df (to_json <$> plays) = Ok df ∧
        df !! "endTime" = Some (ColTime (endTime <$> evs)) ∧
        df !! "date" = Some (ColDate ((λ e, dt_date (endTime e)) <$> evs)) ∧
        df !! "minutesPlayed" =
          Some (ColFloat ((λ p, inject_Z (p_msPlayed p) / inject_Z 60000)%Q <$> plays)).
Proof.
  intros Hne Hrows. exists (frame_of evs). split; [by apply history_to_df_rows|].
  destruct (holds_frame_of evs) as (Ht & _ & _ & _ & Hd & Hf).
  split; [done|]. split; [done|]. rewrite Hf. do 2 f_equal.
  clear -Hrows. induction Hrows as [|p e plays evs (_ & _ & _ & Hm) _ IH]; [done|].
  rewrite !fmap_cons, IH. f_equal. unfold minutesPlayed. by rewrite Hm.
Qed.

Lemma history_to_df_derived_fields_witness :
  ∃ df, history_to_df [to_json play_a; to_json play_b] = Ok df ∧
        df !! "endTime" = Some (ColTime [endTime event_a; endTime event_b]) ∧
        df !! "date" = Some (ColDate [Date_ 2024 1 1; Date_ 2024 1 1]) ∧
        df !! "minutesPlayed" =
          Some (ColFloat [inject_Z 180000 / inject_Z 60000;
                          inject_Z 30000 / inject_Z 60000]%Q).
Proof.
  apply (history_to_df_derived_fields [play_a; play_b] [event_a; event_b]).
  - done.
  - repeat constructor; by vm_compute.
Defined.


(** *** The claims on the summaries *)




Lemma gt_fmap {A} (f : A → Q) (l : list A) (x : Q) :
  gt (f <$> l) x = (λ a, bool_decide (x < f a)%Q) <$> l.
Proof. unfold gt. by rewrite <-list_fmap_compose. Qed.

(** More than a tenth of a minute is more than 6000 ms. *)
Lemma minutesPlayed_gt_tenth (e : event) :
  (1 # 10 < minutesPlayed e)%Q ↔ (6000 < msPlayed e)%Z.
Proof.
  unfold minutesPlayed, Qlt, Qdiv, Qmult, Qinv, inject_Z. simpl. lia.
Qed.

(** Selecting the rows above the threshold from the frame with the
    derived columns gives the normalised frame of those rows. *)
Lemma valid_rows_holds (df : DataFrame) (evs : list event) :
  holds df evs →
  holds
    (df_select (gt (minutesPlayed <$> evs) (1 # 10))
       (<["month":=ColStr (strftime_Y_m <$> (endTime <$> evs))]>
        (<["day_of_week":=ColStr (day_name <$> (endTime <$> evs))]>
         (<["hour":=ColInt (dt_hour <$> (endTime <$> evs))]> df))))
    (filter (λ e, (1 # 10 < minutesPlayed e)%Q) evs).
Proof.
  intros (Ht & Ha & Hk & Hm & Hd & Hf). rewrite gt_fmap.
  assert (∀ k c, k ∉ derived_columns → df !! k = Some c →
    df_select ((λ a, bool_decide (1 # 10 < minutesPlayed a)%Q) <$> evs)
      (<["month":=ColStr (strftime_Y_m <$> (endTime <$> evs))]>
       (<["day_of_week":=ColStr (day_name <$> (endTime <$> evs))]>
        (<["hour":=ColInt (dt_hour <$> (endTime <$> evs))]> df))) !! k =
    Some (column_select
      ((λ a, bool_decide (1 # 10 < minutesPlayed a)%Q) <$> evs) c)) as Hsel.
  { intros k c Hnd Hc. unfold df_select. rewrite lookup_fmap.
    rewrite !lookup_insert_ne, Hc; [done|..]; intros <-; apply Hnd;
      by apply (bool_decide_unpack _). }
  unfold holds.
  rewrite (Hsel "endTime" _ ltac:(by apply (bool_decide_unpack _)) Ht),
    (Hsel "artistName" _ ltac:(by apply (bool_decide_unpack _)) Ha),
    (Hsel "trackName" _ ltac:(by apply (bool_decide_unpack _)) Hk),
    (Hsel "msPlayed" _ ltac:(by apply (bool_decide_unpack _)) Hm),
    (Hsel "date" _ ltac:(by apply (bool_decide_unpack _)) Hd),
    (Hsel "minutesPlayed" _ ltac:(by apply (bool_decide_unpack _)) Hf).
  cbn [column_select]. by rewrite !mask_select_fmap.
Qed.

(** C7.  On a normalised music frame, the frame the play-duration
    histogram is drawn from holds exactly the rows with
    [minutesPlayed > 0.1], in their order; the rows with
    [minutesPlayed <= 0.1] are left out.  ([0.1] is read as 1/10.) *)
Theorem valid_plays_above_threshold (df pdf : DataFrame) (evs : list event) :
  holds df evs →
  ∃ g p,
    plot_listening_patterns (Globals df pdf) = (g, Ok p) ∧
    holds (valid_plays p) (filter (λ e, (1 # 10 < minutesPlayed e)%Q) evs) ∧
    durations p = minutesPlayed <$> filter (λ e, (1 # 10 < minutesPlayed e)%Q) evs ∧
    ∀ e, e ∈ evs →
      (minutesPlayed e ∈ durations p ↔ (1 # 10 < minutesPlayed e)%Q).
Proof.
  intros Hdf. eexists _, _. split; [by eapply plot_listening_patterns_run|].
  cbn [valid_plays durations].
  split; [by apply valid_rows_holds|].
  rewrite gt_fmap, mask_select_fmap. split; [done|].
  intros e He. split.
  - intros [e' [Heq Hin]]%list_elem_of_fmap.
    apply list_elem_of_filter in Hin as [Hgt _]. by rewrite Heq.
  - intros Hgt. apply list_elem_of_fmap. exists e. split; [done|].
    by apply list_elem_of_filter.
Qed.

Lemma valid_plays_above_threshold_witness :
  ∃ g p,
    plot_listening_patterns globals_two = (g, Ok p) ∧
    holds (valid_plays p)
      (filter (λ e, (1 # 10 < minutesPlayed e)%Q) [event_a; event_b]) ∧
    durations p =
      minutesPlayed <$> filter (λ e, (1 # 10 < minutesPlayed e)%Q) [event_a; event_b] ∧
    ∀ e, e ∈ [event_a; event_b] →
      (minutesPlayed e ∈ durations p ↔ (1 # 10 < minutesPlayed e)%Q).
Proof.
  apply (valid_plays_above_threshold _ _ [event_a; event_b]).
  repeat split; by vm_compute.
Defined.

(** *** What the two functions do to the module-level frames *)

Lemma bind_unchanged {A B} (m : M globals A) (k : A → M globals B) :
  (∀ g, fst (m g) = g) → (∀ a g, fst (k a g) = g) →
  ∀ g, fst (bind m k g) = g.
Proof.
  intros Hm Hk g. unfold bind. specialize (Hm g).
  destruct (m g) as [g' [a|e|]]; simpl in *; subst; [apply Hk|done|done].
Qed.

Lemma same_but_derived_refl (g : globals) : same_but_derived g g.
Proof. by split. Qed.

Lemma same_but_derived_trans (g1 g2 g3 : globals) :
  same_but_derived g1 g2 → same_but_derived g2 g3 → same_but_derived g1 g3.
Proof.
  intros [Hp1 Hm1] [Hp2 Hm2]. split; [congruence|].
  intros k Hk. rewrite Hm2, Hm1; done.
Qed.

Lemma bind_same_but_derived {A B} (m : M globals A) (k : A → M globals B) :
  (∀ g, same_but_derived g (fst (m g))) →
  (∀ a g, same_but_derived g (fst (k a g))) →
  ∀ g, same_but_derived g (fst (bind m k g)).
Proof.
  intros Hm Hk g. unfold bind. specialize (Hm g).
  destruct (m g) as [g' [a|e|]]; simpl in *; [|done|done].
  eapply same_but_derived_trans; [exact Hm|apply Hk].
Qed.

Lemma set_music_same_but_derived (k : string) (c : column) (g : globals) :
  k ∈ derived_columns → same_but_derived g (fst (set_music k c g)).
Proof.
  intros Hk. split; [done|]. intros k' Hk'. simpl.
  apply lookup_insert_ne. by intros ->.
Qed.

(** [plot_overall_stats] assigns to neither frame, whatever it is run
    on and however it ends. *)
Lemma plot_overall_stats_unchanged (g : globals) :
  fst (plot_overall_stats g) = g.
Proof.
  revert g. unfold plot_overall_stats.
  repeat (apply bind_unchanged; [by intros []|intros ?]).
  by intros [].
Qed.

(** [plot_listening_patterns] assigns only to the three derived columns
    of [music_df], whatever it is run on and however it ends. *)
Lemma plot_listening_patterns_same_but_derived (g : globals) :
  same_but_derived g (fst (plot_listening_patterns g)).
Proof.
  revert g. unfold plot_listening_patterns.
  repeat (apply bind_same_but_derived;
    [first [ intros g; apply set_music_same_but_derived;
             by apply (bool_decide_unpack _)
           | intros g; apply same_but_derived_refl ]
    | intros ?]).
  intros g. apply same_but_derived_refl.
Qed.

(** The statement of C4 fails on the frame with the single row
    [event_a]: after [plot_listening_patterns] the music frame is not
    what it was (it has an [hour] column). *)
Lemma plot_listening_patterns_changes_music_df :
  fst (plot_listening_patterns globals_sparse) ≠ globals_sparse.
Proof.
  intros Heq. apply (f_equal (λ g, music_df g !! "hour")) in Heq.
  vm_compute in Heq. discriminate.
Qed.

(** C4, as amended.  [plot_overall_stats] leaves both frames as they
    are.  [plot_listening_patterns] leaves the podcast frame and every
    column of the music frame other than [hour], [day_of_week] and
    [month] as they are, so the rows and the normalised fields are
    unchanged; it stores these three derived columns in the shared music
    frame. *)
Theorem summaries_assign_only_derived_columns (df pdf : DataFrame)
    (evs : list event) :
  holds df evs →
  fst (plot_overall_stats (Globals df pdf)) = Globals df pdf ∧
  ∃ df', fst (plot_listening_patterns (Globals df pdf)) = Globals df' pdf ∧
    holds df' evs ∧
    (∀ k, k ∉ derived_columns → df' !! k = df !! k) ∧
    df' !! "hour" = Some (ColInt ((λ e, hour (endTime e)) <$> evs)) ∧
    df' !! "day_of_week" = Some (ColStr ((λ e, day_name (endTime e)) <$> evs)) ∧
    df' !! "month" = Some (ColStr ((λ e, strftime_Y_m (endTime e)) <$> evs)).
Proof.
  intros Hdf. split; [apply plot_overall_stats_unchanged|].
  pose proof (plot_listening_patterns_same_but_derived (Globals df pdf)) as [Hp Hm].
  rewrite (plot_listening_patterns_run df pdf evs Hdf) in *. cbn [fst] in *.
  eexists. split; [reflexivity|]. simpl in Hm.
  split; [|split; [exact Hm|]].
  - destruct Hdf as (Ht & Ha & Hk & Hms & Hd & Hf). unfold holds.
    rewrite !Hm by (by apply (bool_decide_unpack _)). done.
  - rewrite <-!list_fmap_compose. repeat split; by simplify_map_eq.
Qed.

Lemma summaries_assign_only_derived_columns_witness :
  fst (plot_overall_stats globals_sparse) = globals_sparse ∧
  ∃ df', fst (plot_listening_patterns globals_sparse) = Globals df' podcasts ∧
    holds df' [event_a] ∧
    (∀ k, k ∉ derived_columns → df' !! k = frame_of [event_a] !! k) ∧
    df' !! "hour" = Some (ColInt [10%Z]) ∧
    df' !! "day_of_week" = Some (ColStr ["Monday"]) ∧
    df' !! "month" = Some (ColStr ["2024-01"]).
Proof.
  apply (summaries_assign_only_derived_columns _ podcasts [event_a]).
  repeat split; by vm_compute.
Defined.

Lemma valid_timestamp_hour (t : Timestamp) :
  valid_timestamp t = true → (0 ≤ hour t < 24)%Z.
Proof. unfold valid_timestamp. rewrite !andb_true_iff, !Z.leb_le. lia. Qed.

(** The statement of C3 fails on the frame with the single row
    [event_a] (a Monday, 10:00): the hourly summary has one bucket, not
    24, and the bucket of Tuesday holds NaN, not zero. *)
Lemma sparse_input_lacks_buckets :
  ∃ p, snd (plot_listening_patterns globals_sparse) = Ok p ∧
       (hourly_listening p).*1 = [10%Z] ∧
       length (hourly_listening p) ≠ 24 ∧
       ("Tuesday", NaN) ∈ weekly_listening p.
Proof.
  eexists. split; [vm_compute; reflexivity|].
  split; [reflexivity|]. split; [simpl; lia|].
  apply list_elem_of_further, list_elem_of_here.
Qed.

(** C3, as amended.  On a normalised music frame the hourly summary has
    one bucket for each hour in which some row ends and none for the
    other hours, in ascending order of the hour, so at most 24; a bucket
    holds the sum of [minutesPlayed] over the rows that end in its hour.
    The day-of-week summary has exactly the 7 buckets Monday ... Sunday
    in this order; the bucket of a day on which no row ends holds NaN
    (not zero), and every other bucket holds the sum of [minutesPlayed]
    over the rows that end on its day. *)
Theorem distribution_buckets (df pdf : DataFrame) (evs : list event) :
  holds df evs →
  Forall (λ e, valid_timestamp (endTime e) = true) evs →
  ∃ g p,
    plot_listening_patterns (Globals df pdf) = (g, Ok p) ∧
    StronglySorted Z.le (hourly_listening p).*1 ∧
    NoDup (hourly_listening p).*1 ∧
    (∀ h, h ∈ (hourly_listening p).*1 ↔ ∃ e, e ∈ evs ∧ hour (endTime e) = h) ∧
    length (hourly_listening p) ≤ 24 ∧
    (∀ h v, (h, v) ∈ hourly_listening p →
       v = Qsum (minutesPlayed <$> filter (λ e, hour (endTime e) = h) evs)) ∧
    (weekly_listening p).*1 = day_order ∧
    length (weekly_listening p) = 7 ∧
    (∀ d v, (d, v) ∈ weekly_listening p →
       (v = NaN ↔ ∀ e, e ∈ evs → day_name (endTime e) ≠ d)) ∧
    (∀ d v, (d, v) ∈ weekly_listening p → v ≠ NaN →
       v = Fin (Qsum (minutesPlayed <$>
                      filter (λ e, day_name (endTime e) = d) evs))).
Proof.
  intros Hdf Hvalid. eexists _, _.
  split; [by eapply plot_listening_patterns_run|].
  cbn [hourly_listening weekly_listening].
  rewrite groupby_sum_keys, reindex_labels.
  assert (∀ h, h ∈ group_keys Z.le (dt_hour <$> (endTime <$> evs)) ↔
               ∃ e, e ∈ evs ∧ hour (endTime e) = h) as Hhours.
  { intros h. rewrite elem_of_group_keys, <-list_fmap_compose, list_elem_of_fmap.
    split; intros (e & ? & ?); exists e; done. }
  split; [apply group_keys_sorted; apply _|].
  split; [apply group_keys_NoDup|].
  split; [exact Hhours|].
  split.
  { rewrite <-(length_fmap fst), groupby_sum_keys.
    change 24 with (length (seqZ 0 24)).
    apply submseteq_length, NoDup_submseteq; [apply group_keys_NoDup|].
    intros h (e & He & <-)%Hhours. apply elem_of_seqZ.
    rewrite Forall_forall in Hvalid.
    pose proof (valid_timestamp_hour _ (Hvalid e He)). lia. }
  split.
  { intros h v Hhv. rewrite <-list_fmap_compose, groupby_sum_rows in Hhv.
    by apply list_elem_of_fmap in Hhv as (k & [= -> ->] & _). }
  split; [done|].
  split; [unfold reindex; by rewrite length_fmap|].
  rewrite reindex_groupby_sum, <-!list_fmap_compose.
  split.
  - intros d v Hdv.
    apply list_elem_of_fmap in Hdv as (d' & [= -> ->] & _).
    destruct (decide _) as [Hin|Hin].
    + split; [done|]. intros Hno.
      apply list_elem_of_fmap in Hin as (e & Hd & He). by destruct (Hno e He).
    + split; [|done]. intros _ e He Hd. apply Hin.
      apply list_elem_of_fmap. by exists e.
  - intros d v Hdv Hv.
    apply list_elem_of_fmap in Hdv as (d' & [= -> ->] & _).
    destruct (decide _) as [Hin|Hin]; [|done].
    by rewrite group_rows_fmap.
Qed.

Lemma distribution_buckets_witness :
  ∃ g p,
    plot_listening_patterns globals_sparse = (g, Ok p) ∧
    StronglySorted Z.le (hourly_listening p).*1 ∧
    NoDup (hourly_listening p).*1 ∧
    (∀ h, h ∈ (hourly_listening p).*1 ↔
          ∃ e, e ∈ [event_a] ∧ hour (endTime e) = h) ∧
    length (hourly_listening p) ≤ 24 ∧
    (∀ h v, (h, v) ∈ hourly_listening p →
       v = Qsum (minutesPlayed <$>
                 filter (λ e, hour (endTime e) = h) [event_a])) ∧
    (weekly_listening p).*1 = day_order ∧
    length (weekly_listening p) = 7 ∧
    (∀ d v, (d, v) ∈ weekly_listening p →
       (v = NaN ↔ ∀ e, e ∈ [event_a] → day_name (endTime e) ≠ d)) ∧
    (∀ d v, (d, v) ∈ weekly_listening p → v ≠ NaN →
       v = Fin (Qsum (minutesPlayed <$>
                      filter (λ e, day_name (endTime e) = d) [event_a]))).
Proof.
  apply (distribution_buckets _ podcasts [event_a]).
  - repeat split; by vm_compute.
  - repeat constructor.
Defined.

(** The statement of C6 fails on the frame with the rows [event_c],
    [event_d]: both tracks are played once, "T2" is seen first, and the
    summary lists "T1" before "T2". *)
Lemma ties_not_by_first_seen :
  ∃ stats, snd (plot_overall_stats globals_ties) = Ok stats ∧
           track_counts stats = [("T1", 1); ("T2", 1)] ∧
           ¬ ties_by_first_seen eq ["T2"; "T1"] (track_counts stats).
Proof.
  eexists. split; [vm_compute; reflexivity|]. split; [reflexivity|].
  intros Hties.
  destruct (Hties 0 1 ("T1", 1) ("T2", 1)) as (n & m & Hn & Hm & Hlt);
    [lia|reflexivity|reflexivity|reflexivity|].
  vm_compute in Hn, Hm. simplify_eq. lia.
Qed.

(** C6, as amended.  On a normalised music frame the top-artists
    summary (minutes summed per artist) and the top-tracks summary (rows
    counted per track) each have at most 10 entries, 10 or as many as
    there are artists (tracks) if these are fewer; no artist and no
    track is listed twice; each entry is an artist (a track) of the
    input with the sum of [minutesPlayed] over its rows (the number of
    its rows); and the entries are in non-increasing order of the value.
    The grouped series reach the sort with their keys in ascending
    order; nothing is said about the order of entries with equal
    values. *)
Theorem top_summaries (df pdf : DataFrame) (evs : list event) (pm : list Q) :
  holds df evs →
  pdf !! "minutesPlayed" = Some (ColFloat pm) →
  ∃ stats,
    plot_overall_stats (Globals df pdf) = (Globals df pdf, Ok stats) ∧
    length (top_artists stats) ≤ 10 ∧
    length (track_counts stats) ≤ 10 ∧
    StronglySorted (λ a b, (b.2 <= a.2)%Q) (top_artists stats) ∧
    StronglySorted (λ a b, b.2 ≤ a.2) (track_counts stats) ∧
    top_artists stats ⊆+
      groupby_sum String.le (artistName <$> evs) (minutesPlayed <$> evs) ∧
    track_counts stats ⊆+
      groupby_count String.le (trackName <$> evs) (minutesPlayed <$> evs) ∧
    StronglySorted String.le
      (groupby_sum String.le (artistName <$> evs) (minutesPlayed <$> evs)).*1 ∧
    StronglySorted String.le
      (groupby_count String.le (trackName <$> evs) (minutesPlayed <$> evs)).*1 ∧
    length (top_artists stats) =
      10 `min` length (remove_dups (artistName <$> evs)) ∧
    length (track_counts stats) =
      10 `min` length (remove_dups (trackName <$> evs)) ∧
    NoDup (top_artists stats).*1 ∧
    NoDup (track_counts stats).*1 ∧
    (∀ a v, (a, v) ∈ top_artists stats →
       a ∈ artistName <$> evs ∧
       v = Qsum (minutesPlayed <$> filter (λ e, artistName e = a) evs)) ∧
    (∀ t n, (t, n) ∈ track_counts stats →
       t ∈ trackName <$> evs ∧
       n = length (filter (λ e, trackName e = t) evs)).
Proof.
  intros Hdf Hp. eexists. split; [by eapply plot_overall_stats_run|].
  cbn [top_artists track_counts].
  split; [apply head_length|]. split; [apply head_length|].
  split; [apply (head_sort_values_desc_sorted Qle)|].
  split; [apply (head_sort_values_desc_sorted le)|].
  split; [apply head_sort_values_desc_submseteq|].
  split; [apply head_sort_values_desc_submseteq|].
  rewrite groupby_sum_keys, groupby_count_keys.
  split; [apply group_keys_sorted; apply _|].
  split; [apply group_keys_sorted; apply _|].
  split.
  { rewrite (head_sort_values_desc_length Qle).
    rewrite <-(length_fmap fst (groupby_sum _ _ _)), groupby_sum_keys.
    by rewrite group_keys_perm. }
  split.
  { rewrite (head_sort_values_desc_length le).
    rewrite <-(length_fmap fst (groupby_count _ _ _)), groupby_count_keys.
    by rewrite group_keys_perm. }
  split.
  { apply (head_sort_values_desc_keys Qle).
    rewrite groupby_sum_keys. apply group_keys_NoDup. }
  split.
  { apply (head_sort_values_desc_keys le).
    rewrite groupby_count_keys. apply group_keys_NoDup. }
  split.
  - intros a v Hin.
    pose proof (elem_of_submseteq _ _ _ Hin
                  (head_sort_values_desc_submseteq Qle 10 _)) as Hin'.
    rewrite groupby_sum_rows in Hin'.
    apply list_elem_of_fmap in Hin' as (k & [= -> ->] & Hk).
    by apply elem_of_group_keys in Hk.
  - intros t n Hin.
    pose proof (elem_of_submseteq _ _ _ Hin
                  (head_sort_values_desc_submseteq le 10 _)) as Hin'.
    rewrite groupby_count_rows in Hin'.
    apply list_elem_of_fmap in Hin' as (k & [= -> ->] & Hk).
    by apply elem_of_group_keys in Hk.
Qed.

Lemma top_summaries_witness :
  ∃ stats,
    plot_overall_stats globals_ties = (globals_ties, Ok stats) ∧
    length (top_artists stats) ≤ 10 ∧
    length (track_counts stats) ≤ 10 ∧
    StronglySorted (λ a b, (b.2 <= a.2)%Q) (top_artists stats) ∧
    StronglySorted (λ a b, b.2 ≤ a.2) (track_counts stats) ∧
    top_artists stats ⊆+
      groupby_sum String.le (artistName <$> [event_c; event_d])
        (minutesPlayed <$> [event_c; event_d]) ∧
    track_counts stats ⊆+
      groupby_count String.le (trackName <$> [event_c; event_d])
        (minutesPlayed <$> [event_c; event_d]) ∧
    StronglySorted String.le
      (groupby_sum String.le (artistName <$> [event_c; event_d])
         (minutesPlayed <$> [event_c; event_d])).*1 ∧
    StronglySorted String.le
      (groupby_count String.le (trackName <$> [event_c; event_d])
         (minutesPlayed <$> [event_c; event_d])).*1 ∧
    length (top_artists stats) =
      10 `min` length (remove_dups (artistName <$> [event_c; event_d])) ∧
    length (track_counts stats) =
      10 `min` length (remove_dups (trackName <$> [event_c; event_d])) ∧
    NoDup (top_artists stats).*1 ∧
    NoDup (track_counts stats).*1 ∧
    (∀ a v, (a, v) ∈ top_artists stats →
       a ∈ artistName <$> [event_c; event_d] ∧
       v = Qsum (minutesPlayed <$>
                 filter (λ e, artistName e = a) [event_c; event_d])) ∧
    (∀ t n, (t, n) ∈ track_counts stats →
       t ∈ trackName <$> [event_c; event_d] ∧
       n = length (filter (λ e, trackName e = t) [event_c; event_d])).
Proof.
  apply (top_summaries _ _ [event_c; event_d] []).
  - repeat split; by vm_compute.
  - by vm_compute.
Defined.

End AnalysisSpec.

(* ===================================================================== *)
(** ** Shard ingestion on an arbitrary file system *)
(* ===================================================================== *)

Module LoaderRuns.
Import Loader Samples LoaderSpec.

(** *** How an iteration can end *)

(** What [len] gives for a value that can be iterated. *)
Lemma py_len_iterable (c : json) (items : list json) :
  py_iter c = Ok items → py_len c = Ok (length items).
Proof.
  destruct c; intros Hit; simplify_eq/=; try done.
  - f_equal. rewrite length_fmap.
    induction s as [|a s IH]; simpl; [done|]. by rewrite IH.
  - by rewrite !length_fmap.
Qed.

(** An iteration either loads the shard at the current index and goes
    on, or opens the path of the current index and leaves the loop,
    printing at most one line; it never lets an exception through. *)
Lemma iteration_cases (st : state) :
  let path := shard_path (file_index st) in
  (∃ c items,
     fs st !! path = Some (FileJson c) ∧ py_iter c = Ok items ∧
     iteration st =
       (State (fs st) (opened st ++ [path])
              (stdout st ++ [loaded_line path (length items)])
              (all_music_data st ++ items) (S (file_index st)), Continue)) ∨
  (∃ lines,
     ¬ (∃ c items, fs st !! path = Some (FileJson c) ∧ py_iter c = Ok items) ∧
     length lines ≤ 1 ∧
     iteration st =
       (State (fs st) (opened st ++ [path]) (stdout st ++ lines)
              (all_music_data st) (file_index st), Break)).
Proof.
  intros path. unfold iteration. fold path.
  unfold try_block, bind, load_json, extend, bind, lift.
  destruct (fs st !! path) as [[c|e]|] eqn:Hf; simpl.
  - destruct (py_iter c) as [items|e|] eqn:Hit; simpl.
    + left. exists c, items. split; [done|]. split; [done|].
      rewrite (py_len_iterable c items Hit). reflexivity.
    + right. assert (exn_cls e = TypeError) as Hc
        by (destruct c; simplify_eq/=; done).
      destruct (decide _) as [Heq|_]; [congruence|].
      exists [error_line path e]. split; [|split; [simpl; lia|done]].
      intros (c' & items & [= <-] & ?). congruence.
    + destruct c; discriminate.
  - right. destruct (decide _) as [_|_].
    + exists []. split; [|split; [simpl; lia|by rewrite app_nil_r]].
      intros (c' & items & ? & ?). congruence.
    + exists [error_line path e]. split; [|split; [simpl; lia|done]].
      intros (c' & items & ? & ?). congruence.
  - right. exists []. split; [|split; [simpl; lia|by rewrite app_nil_r]].
    intros (c' & items & ? & ?). congruence.
Qed.

(** *** Runs of the loop *)

(** When the loop is left, it is left normally, the file system is as it
    was, and the paths opened are those of the indices from the first
    one to the last one reached, in this order. *)
Lemma while_true_run (fuel : nat) : ∀ st st' r,
  while_true fuel st = Some (st', r) →
  r = Ok () ∧ fs st' = fs st ∧ file_index st ≤ file_index st' ∧
  opened st' =
    opened st ++
    (shard_path <$> seq (file_index st) (S (file_index st' - file_index st))).
Proof.
  induction fuel as [|fuel IH]; intros st st' r Hrun; [done|].
  simpl in Hrun.
  destruct (iteration_cases st) as [(c & items & _ & _ & Hit)|(lines & _ & _ & Hit)];
    rewrite Hit in Hrun.
  - apply IH in Hrun as (-> & Hfs & Hle & Hop).
    cbn [fs opened file_index] in Hfs, Hle, Hop.
    split; [done|]. split; [done|]. split; [lia|].
    rewrite Hop, <-app_assoc. f_equal.
    replace (file_index st' - file_index st)
      with (S (file_index st' - S (file_index st))) by lia.
    reflexivity.
  - injection Hrun as <- <-. cbn [fs opened file_index].
    split; [done|]. split; [done|]. split; [lia|].
    by rewrite Nat.sub_diag.
Qed.

(** While the fuel does not suffice, every index tried so far names a
    file that exists. *)
Lemma while_true_out_of_fuel (fuel : nat) : ∀ st,
  while_true fuel st = None →
  ∀ i, i < fuel → is_Some (fs st !! shard_path (file_index st + i)).
Proof.
  induction fuel as [|fuel IH]; intros st Hrun i Hi; [lia|].
  simpl in Hrun.
  destruct (iteration_cases st) as [(c & items & Hf & _ & Hit)|(lines & _ & _ & Hit)];
    rewrite Hit in Hrun; [|done].
  destruct i as [|i].
  - rewrite Nat.add_0_r. by rewrite Hf.
  - specialize (IH _ Hrun i ltac:(lia)). simpl in IH.
    by replace (file_index st + S i) with (S (file_index st + i)) by lia.
Qed.

Lemma NoDup_shard_paths (first n : nat) : NoDup (shard_path <$> seq first n).
Proof.
  apply NoDup_fmap_2; [|apply NoDup_seq].
  intros i j. apply shard_path_inj.
Qed.

(** A file system holds finitely many files, so fuel for one iteration
    more than it has files is enough. *)
Lemma while_true_enough_fuel (files : gmap string file) :
  is_Some (while_true (S (size files)) (initial files)).
Proof.
  destruct (while_true _ _) as [res|] eqn:Hrun; [by eexists|].
  exfalso.
  pose proof (while_true_out_of_fuel _ _ Hrun) as Hall. simpl in Hall.
  assert (list_to_set (shard_path <$> seq 0 (S (size files))) ⊆ dom files)
    as Hsub.
  { intros p Hp. apply elem_of_list_to_set, list_elem_of_fmap in Hp as (i & -> & Hi).
    apply elem_of_seq in Hi. apply elem_of_dom, Hall. lia. }
  apply subseteq_size in Hsub.
  rewrite size_list_to_set in Hsub by apply NoDup_shard_paths.
  rewrite length_fmap, length_seq, size_dom in Hsub. lia.
Qed.

(** *** Properties of every run *)

Lemma load_all_music_history_enough_fuel (files : gmap string file) :
  ∃ st, load_all_music_history (S (size files)) files =
          Some (st, Ok (all_music_data st)) ∧
        fs st = files.
Proof.
  unfold load_all_music_history.
  destruct (while_true_enough_fuel files) as [[st r] Hrun]. rewrite Hrun.
  apply while_true_run in Hrun as (-> & Hfs & _ & _).
  by exists st.
Qed.

(** X1.  The loop of [load_all_music_history] always comes to an end and the
    function always returns a list: whatever files there are, and
    whatever opening or parsing them raises, fuel for one iteration more
    than there are files gives a normal return. *)
Theorem load_all_music_history_returns (files : gmap string file) :
  ∃ st data,
    load_all_music_history (S (size files)) files = Some (st, Ok data) ∧
    data = all_music_data st ∧ fs st = files.
Proof.
  destruct (load_all_music_history_enough_fuel files) as (st & Hrun & Hfs).
  by exists st, (all_music_data st).
Qed.

(** X2.  Whenever [load_all_music_history] returns, it has opened the shard
    paths of the indices 0, 1, ..., k in this order, each of them once,
    and no other path; k is the index at which the loop was left. *)
Theorem load_opens_consecutive_shards (files : gmap string file) (fuel : nat)
    (st : state) (r : outcome (list json)) :
  load_all_music_history fuel files = Some (st, r) →
  opened st = shard_path <$> seq 0 (S (file_index st)) ∧ NoDup (opened st).
Proof.
  unfold load_all_music_history. intros Hrun.
  destruct (while_true fuel (initial files)) as [[st' r']|] eqn:Hw; [|done].
  apply while_true_run in Hw as (-> & _ & _ & Hop). injection Hrun as <- _.
  change (opened st' = shard_path <$> seq 0 (S (file_index st' - 0))) in Hop.
  rewrite Nat.sub_0_r in Hop. rewrite Hop.
  split; [done|]. apply NoDup_shard_paths.
Qed.

Lemma load_opens_consecutive_shards_witness :
  ∃ st, load_all_music_history 3 files_gap = Some (st, Ok shard_a) ∧
        opened st = [shard_path 0; shard_path 1] ∧ NoDup (opened st).
Proof.
  eexists. split; [reflexivity|].
  refine (load_opens_consecutive_shards files_gap 3 _ (Ok shard_a) _).
  reflexivity.
Defined.

End LoaderRuns.

(* ===================================================================== *)
(** ** Shard ingestion: the longest loadable prefix *)
(* ===================================================================== *)

Module LoaderPrefix.
Import Loader Samples Fixtures LoaderSpec LoaderRuns.

(** What the loop has appended when it is left: the elements of the
    shards from the first index to the one before the last index
    reached, each of which was there and could be iterated; the shard
    at the last index reached was not there or could not be loaded. *)
Lemma while_true_prefix (fuel : nat) : ∀ st st' r,
  while_true fuel st = Some (st', r) →
  ∃ itemss : list (list json),
    all_music_data st' = all_music_data st ++ concat itemss ∧
    file_index st' = file_index st + length itemss ∧
    (∀ i items, itemss !! i = Some items →
       ∃ c, fs st !! shard_path (file_index st + i) = Some (FileJson c) ∧
            py_iter c = Ok items) ∧
    ¬ (∃ c items,
         fs st !! shard_path (file_index st') = Some (FileJson c) ∧
         py_iter c = Ok items).
Proof.
  induction fuel as [|fuel IH]; intros st st' r Hrun; [done|].
  cbn [while_true] in Hrun.
  destruct (iteration_cases st) as [(c & items & Hf & Hit & Heq)|(lines & Hno & _ & Heq)];
    rewrite Heq in Hrun.
  - apply IH in Hrun as (itemss & Hd & Hi & Hall & Hstop).
    cbn [fs all_music_data file_index] in Hd, Hi, Hall, Hstop.
    exists (items :: itemss). split; [|split; [|split]].
    + rewrite Hd. cbn [concat]. by rewrite <-app_assoc.
    + rewrite Hi. cbn [length]. lia.
    + intros [|i] its Hits.
      * injection Hits as <-. rewrite Nat.add_0_r. by exists c.
      * replace (file_index st + S i) with (S (file_index st) + i) by lia.
        by apply Hall.
    + exact Hstop.
  - injection Hrun as <- <-. exists []. cbn [fs all_music_data file_index].
    split; [by rewrite app_nil_r|]. split; [cbn [length]; lia|].
    split; [intros i its Hits; by rewrite lookup_nil in Hits|done].
Qed.

(** X3.  On every file system, what [load_all_music_history] returns is the
    concatenation, in index order, of the elements of the shards
    0 .. k-1, where k is the first index whose file is missing, cannot
    be read or parsed, or does not hold something that can be iterated.
    Nothing of that shard or of a later one is in the result. *)
Theorem load_returns_longest_loadable_prefix (files : gmap string file)
    (fuel : nat) (st : state) (r : outcome (list json)) :
  load_all_music_history fuel files = Some (st, r) →
  ∃ itemss : list (list json),
    r = Ok (concat itemss) ∧
    length itemss = file_index st ∧
    (∀ i items, itemss !! i = Some items →
       ∃ c, files !! shard_path i = Some (FileJson c) ∧ py_iter c = Ok items) ∧
    ¬ (∃ c items,
         files !! shard_path (file_index st) = Some (FileJson c) ∧
         py_iter c = Ok items).
Proof.
  unfold load_all_music_history. intros Hrun.
  destruct (while_true fuel (initial files)) as [[st' r']|] eqn:Hw; [|done].
  pose proof (while_true_run _ _ _ _ Hw) as (-> & _ & _ & _).
  apply while_true_prefix in Hw as (itemss & Hd & Hi & Hall & Hstop).
  injection Hrun as <- <-. exists itemss.
  cbn [initial fs all_music_data file_index] in *.
  split; [by rewrite Hd|]. split; [lia|]. split; [exact Hall|exact Hstop].
Qed.

Lemma load_returns_longest_loadable_prefix_witness :
  ∃ itemss : list (list json),
    Ok shard_a = Ok (concat itemss) ∧
    length itemss = 1 ∧
    (∀ i items, itemss !! i = Some items →
       ∃ c, files_null !! shard_path i = Some (FileJson c) ∧
            py_iter c = Ok items) ∧
    ¬ (∃ c items,
         files_null !! shard_path 1 = Some (FileJson c) ∧
         py_iter c = Ok items).
Proof.
  refine (load_returns_longest_loadable_prefix files_null 2
            (State files_null [shard_path 0; shard_path 1]
               [loaded_line (shard_path 0) 1;
                error_line (shard_path 1)
                  (Exn TypeError "'NoneType' object is not iterable")]
               shard_a 1)
            (Ok shard_a) _).
  reflexivity.
Defined.

End LoaderPrefix.

(* ===================================================================== *)
(** ** Shard ingestion: the lines printed and shards that are not arrays *)
(* ===================================================================== *)

Module LoaderEdges.
Import Loader Samples Fixtures LoaderSpec.

Lemma after_shards_stdout st shards :
  stdout (after_shards st shards) =
  stdout st ++
  imap (λ i recs, loaded_line (shard_path (file_index st + i)) (length recs))
       shards.
Proof.
  revert st. induction shards as [|recs shards IH]; intros st.
  - by rewrite app_nil_r.
  - cbn [after_shards foldl]. fold (after_shards (after_shard st recs) shards).
    rewrite IH. cbn [after_shard stdout file_index imap].
    rewrite <-app_assoc, Nat.add_0_r. cbn [app]. do 2 f_equal.
    apply imap_ext. intros i r _. simpl. do 2 f_equal. lia.
Qed.

(** The state reached once the shards [shards] have been loaded. *)
Lemma after_shards_initial files shards :
  after_shards (initial files) shards =
  State files (shard_path <$> seq 0 (length shards))
        (imap (λ i recs, loaded_line (shard_path i) (length recs)) shards)
        (concat shards) (length shards).
Proof.
  pose proof (after_shards_fs (initial files) shards) as Hfs.
  pose proof (after_shards_file_index (initial files) shards) as Hi.
  pose proof (after_shards_data (initial files) shards) as Hd.
  pose proof (after_shards_opened (initial files) shards) as Ho.
  pose proof (after_shards_stdout (initial files) shards) as Hs.
  destruct (after_shards (initial files) shards). simpl in *. by subst.
Qed.

(** X4.  When the shards 0 .. k-1 load and index k does not exist, the lines
    printed are one line per shard, in shard order, each naming the path
    of the shard and the number of its records, and nothing else. *)
Theorem load_reports_every_shard files shards fuel :
  shards_present files 0 shards →
  files !! shard_path (length shards) = None →
  length shards < fuel →
  ∃ st, load_all_music_history fuel files = Some (st, Ok (concat shards)) ∧
        stdout st =
          imap (λ i recs, loaded_line (shard_path i) (length recs)) shards.
Proof.
  intros Hp Hgap Hfuel. eexists. split; [by apply load_stops_missing|].
  unfold final_state. cbn [stdout]. rewrite after_shards_initial. cbn [stdout].
  by rewrite app_nil_r.
Qed.

Lemma load_reports_every_shard_witness :
  ∃ st, load_all_music_history 3 files_two = Some (st, Ok (shard_a ++ shard_b)) ∧
        stdout st =
          ["Loaded sampledata/StreamingHistory_music_0.json with 1 entries";
           "Loaded sampledata/StreamingHistory_music_1.json with 1 entries"].
Proof.
  apply (load_reports_every_shard files_two [shard_a; shard_b] 3).
  - intros [|[|i]] recs Hi; simplify_eq/=; by vm_compute.
  - by vm_compute.
  - simpl. lia.
Defined.

(** X5.  A shard that is valid JSON but holds a value that cannot be
    iterated ([null], a boolean, a number) stops the loop like a file
    that does not parse: [extend] raises [TypeError], the handler prints
    it, and the function returns the records of the earlier shards. *)
Theorem load_halts_on_scalar_shard files shards c e fuel :
  shards_present files 0 shards →
  files !! shard_path (length shards) = Some (FileJson c) →
  py_iter c = Raise e →
  length shards < fuel →
  ∃ st, load_all_music_history fuel files = Some (st, Ok (concat shards)) ∧
        exn_cls e = TypeError ∧
        last (stdout st) = Some (error_line (shard_path (length shards)) e).
Proof.
  intros Hp Hc Hit Hfuel. unfold load_all_music_history.
  replace fuel with (length shards + S (fuel - S (length shards))) by lia.
  rewrite while_true_after_shards by done.
  rewrite after_shards_initial. cbn [while_true].
  rewrite (iteration_not_iterable _ c e) by done.
  eexists. split; [reflexivity|]. split.
  - destruct c; simplify_eq/=; done.
  - cbn [stdout]. by rewrite last_snoc.
Qed.

Lemma load_halts_on_scalar_shard_witness :
  ∃ st, load_all_music_history 2 files_null = Some (st, Ok shard_a) ∧
        exn_cls (Exn TypeError "'NoneType' object is not iterable") = TypeError ∧
        last (stdout st) =
          Some "Error loading sampledata/StreamingHistory_music_1.json: 'NoneType' object is not iterable".
Proof.
  apply (load_halts_on_scalar_shard files_null [shard_a] JNull
           (Exn TypeError "'NoneType' object is not iterable") 2).
  - intros [|i] recs Hi; simplify_eq/=; by vm_compute.
  - by vm_compute.
  - reflexivity.
  - simpl. lia.
Defined.

(** X6.  The loader does not check that a shard holds an array.  A shard
    that holds a JSON object is taken as well: [extend] iterates over
    the object, so its keys (strings, not records) are appended, the
    line printed counts the keys, and the loop goes on to the next
    index. *)
Theorem load_takes_keys_of_object_shard files shards fields fuel :
  shards_present files 0 shards →
  files !! shard_path (length shards) = Some (FileJson (JObj fields)) →
  files !! shard_path (S (length shards)) = None →
  S (length shards) < fuel →
  ∃ st, load_all_music_history fuel files =
          Some (st, Ok (concat shards ++ (JStr <$> fields.*1))) ∧
        file_index st = S (length shards) ∧
        last (stdout st) =
          Some (loaded_line (shard_path (length shards)) (length fields)).
Proof.
  intros Hp Hc Hgap Hfuel. unfold load_all_music_history.
  replace fuel with (length shards + S (S (fuel - S (S (length shards))))) by lia.
  rewrite while_true_after_shards by done.
  rewrite after_shards_initial. cbn [while_true].
  unfold iteration at 1. cbn [file_index].
  unfold try_block, bind, load_json, extend, bind, lift. cbn [fs].
  rewrite Hc. cbn [py_iter py_len print incr_file_index fs opened stdout
                   all_music_data file_index].
  rewrite iteration_missing by done.
  eexists. split; [reflexivity|]. split; [done|].
  cbn [stdout]. by rewrite last_snoc.
Qed.

Lemma load_takes_keys_of_object_shard_witness :
  ∃ st, load_all_music_history 3 files_bare_record =
          Some (st, Ok (shard_a ++ [JStr "endTime"; JStr "artistName";
                                    JStr "trackName"; JStr "msPlayed"])) ∧
        file_index st = 2 ∧
        last (stdout st) =
          Some "Loaded sampledata/StreamingHistory_music_1.json with 4 entries".
Proof.
  apply (load_takes_keys_of_object_shard files_bare_record [shard_a]
           [("endTime", JStr "2024-01-01 11:30"); ("artistName", JStr "B");
            ("trackName", JStr "T2"); ("msPlayed", JInt 30000)] 3).
  - intros [|i] recs Hi; simplify_eq/=; by vm_compute.
  - by vm_compute.
  - by vm_compute.
  - simpl. lia.
Defined.

End LoaderEdges.

(* ===================================================================== *)
(** ** The script: runs that end in a traceback *)
(* ===================================================================== *)

Module ToplevelSpec.
Import Loader Toplevel Samples Fixtures LoaderSpec LoaderRuns.

(** *** The [try] of lines 40 to 47 *)

(** Whenever [load_all_music_history] returns, it returns a list and the
    file system is as it was. *)
Lemma load_all_music_history_inv fuel files st r :
  load_all_music_history fuel files = Some (st, r) →
  r = Ok (all_music_data st) ∧ fs st = files.
Proof.
  unfold load_all_music_history. intros Hrun.
  destruct (while_true fuel (initial files)) as [[st' r']|] eqn:Hw; [|done].
  apply while_true_run in Hw as (-> & Hfs & _ & _). by injection Hrun as <- <-.
Qed.

(** What the [try] leaves behind, by the files it finds. *)
Lemma load_data_cases fuel files st data :
  load_all_music_history fuel files = Some (st, Ok data) →
  fs st = files →
  ∃ w, load_data fuel files = Some (w, Ok ()) ∧
       music_history w = Some data ∧
       match files !! podcast_path with
       | Some (FileJson p) =>
           podcast_history w = Some p ∧
           match files !! library_path, files !! wrapped_path with
           | Some (FileJson _), Some (FileJson _) =>
               last (stdout (io w)) = Some (success_line (length data))
           | _, _ => ∃ e, last (stdout (io w)) = Some (data_error_line e)
           end
       | Some (FileBad e) =>
           podcast_history w = None ∧
           last (stdout (io w)) = Some (data_error_line e)
       | None =>
           podcast_history w = None ∧
           last (stdout (io w)) =
             Some (data_error_line (no_such_file podcast_path))
       end.
Proof.
  intros Hrun Hfs. unfold load_data. rewrite Hrun.
  unfold try_body, bind, lift, on_io, load_json, bind_music_history,
    bind_podcast_history, bind_library, bind_wrapped, print.
  cbn [io fs music_history podcast_history library wrapped opened stdout
       all_music_data file_index].
  rewrite Hfs.
  destruct (files !! podcast_path) as [[p|e]|];
    cbn [io fs music_history podcast_history library wrapped opened stdout
         all_music_data file_index].
  - destruct (files !! library_path) as [[l|e]|];
      cbn [io fs music_history podcast_history library wrapped opened stdout
           all_music_data file_index].
    + destruct (files !! wrapped_path) as [[x|e]|];
        cbn [io fs music_history podcast_history library wrapped opened stdout
             all_music_data file_index];
        eexists; (split; [reflexivity|]); (split; [reflexivity|]);
        (split; [reflexivity|]); cbn [io stdout]; rewrite ?last_snoc; eauto.
    + eexists; (split; [reflexivity|]); (split; [reflexivity|]);
        (split; [reflexivity|]); cbn [io stdout]; rewrite ?last_snoc; eauto.
    + eexists; (split; [reflexivity|]); (split; [reflexivity|]);
        (split; [reflexivity|]); cbn [io stdout]; rewrite ?last_snoc; eauto.
  - eexists; (split; [reflexivity|]); (split; [reflexivity|]);
      (split; [reflexivity|]); cbn [io stdout]; by rewrite ?last_snoc.
  - eexists; (split; [reflexivity|]); (split; [reflexivity|]);
      (split; [reflexivity|]); cbn [io stdout]; by rewrite ?last_snoc.
Qed.


Lemma script_inv fuel files w e :
  script fuel files = Some (w, e) →
  ∃ st, load_all_music_history fuel files = Some (st, Ok (all_music_data st)) ∧
        fs st = files ∧
        load_data fuel files = Some (w, Ok ()) ∧ e = analyse w.
Proof.
  intros Hs.
  destruct (load_all_music_history fuel files) as [[st r]|] eqn:Hrun.
  - destruct (load_all_music_history_inv _ _ _ _ Hrun) as [-> Hfs].
    destruct (load_data_cases _ _ _ _ Hrun Hfs) as (w' & Hd & _).
    unfold script in Hs. rewrite Hd in Hs. injection Hs as <- <-.
    by exists st.
  - unfold script, load_data in Hs. by rewrite Hrun in Hs.
Qed.

Lemma script_returns files :
  ∃ w, script (S (size files)) files = Some (w, analyse w).
Proof.
  destruct (load_all_music_history_enough_fuel files) as (st & Hrun & Hfs).
  destruct (load_data_cases _ _ _ _ Hrun Hfs) as (w & Hd & _).
  exists w. unfold script. by rewrite Hd.
Qed.

(** *** How a run ends when a file is missing *)

(** X7.  Without the podcast history the run does not get to the charts.
    The handler of line 46 prints the error of [open] and the script
    goes on; [podcast_history] was never bound, so line 59 raises
    [NameError] once line 58 has normalised the music history (and if
    line 58 fails, the run ends there). *)
Theorem missing_podcast_history_is_fatal (files : gmap string file) :
  files !! podcast_path = None →
  (∃ w e, script (S (size files)) files = Some (w, e)) ∧
  ∀ fuel w e, script fuel files = Some (w, e) →
    last (stdout (io w)) = Some (data_error_line (no_such_file podcast_path)) ∧
    podcast_history w = None ∧
    (∀ stats patterns, e ≠ Finished stats patterns) ∧
    (∀ data df, music_history w = Some data → history_to_df data = Ok df →
       e = Traceback (NameError "podcast_history")).
Proof.
  intros Hp. split.
  { destruct (script_returns files) as [w Hw]. by exists w, (analyse w). }
  intros fuel w e (st & Hrun & Hfs & Hd & ->)%script_inv.
  destruct (load_data_cases _ _ _ _ Hrun Hfs) as (w' & Hd' & Hm & Hcase).
  rewrite Hd in Hd'. injection Hd' as <-.
  rewrite Hp in Hcase. destruct Hcase as [Hph Hout].
  split; [done|]. split; [done|].
  unfold analyse. rewrite Hm, Hph. cbn [read_name]. split.
  - intros stats patterns. by destruct (history_to_df _).
  - intros data df [= <-] ->. reflexivity.
Qed.

Lemma missing_podcast_history_is_fatal_witness :
  (∃ w e, script (S (size files_two)) files_two = Some (w, e)) ∧
  ∀ fuel w e, script fuel files_two = Some (w, e) →
    last (stdout (io w)) =
      Some (data_error_line (no_such_file podcast_path)) ∧
    podcast_history w = None ∧
    (∀ stats patterns, e ≠ Finished stats patterns) ∧
    (∀ data df, music_history w = Some data → history_to_df data = Ok df →
       e = Traceback (NameError "podcast_history")).
Proof.
  apply (missing_podcast_history_is_fatal files_two). by vm_compute.
Defined.

(** X8.  Without shard 0 the run ends at line 58, whatever other files there
    are: [load_all_music_history] returns the empty list, the frame
    built from it has no columns, and [df['endTime']] raises
    [KeyError]. *)
Theorem empty_music_history_is_fatal (files : gmap string file) (fuel : nat) :
  files !! shard_path 0 = None →
  0 < fuel →
  ∃ w, script fuel files =
         Some (w, Traceback (Exception (Exn KeyError "'endTime'"))) ∧
       music_history w = Some [].
Proof.
  intros Hgap Hfuel.
  pose proof (load_stops_missing files [] fuel) as Hrun.
  cbn [length concat] in Hrun. specialize (Hrun ltac:(done) Hgap Hfuel).
  destruct (load_data_cases _ _ _ _ Hrun eq_refl) as (w & Hd & Hm & _).
  exists w. split; [|done].
  unfold script. rewrite Hd. unfold analyse. rewrite Hm. reflexivity.
Qed.

Lemma empty_music_history_is_fatal_witness :
  ∃ w, script 1 files_only_1 =
         Some (w, Traceback (Exception (Exn KeyError "'endTime'"))) ∧
       music_history w = Some [].
Proof.
  apply (empty_music_history_is_fatal files_only_1 1); [by vm_compute|lia].
Defined.


End ToplevelSpec.

(* ===================================================================== *)
(** ** The script: the files that matter and a complete export *)
(* ===================================================================== *)

Module ToplevelFlow.
Import Loader Toplevel Samples Fixtures LoaderSpec LoaderRuns ToplevelSpec.
Import PandasFacts AnalysisSpec.

(** *** The files that are loaded and not used *)

Lemma shard_path_not_library i : shard_path i ≠ library_path.
Proof. unfold shard_path, library_path. simpl. discriminate. Qed.

Lemma shard_path_not_wrapped i : shard_path i ≠ wrapped_path.
Proof. unfold shard_path, wrapped_path. simpl. discriminate. Qed.

Lemma podcast_path_not_library : podcast_path ≠ library_path.
Proof. discriminate. Qed.

Lemma podcast_path_not_wrapped : podcast_path ≠ wrapped_path.
Proof. discriminate. Qed.

(** An iteration looks at the file system only under the path of the
    current index. *)
Lemma iteration_other_files st files' :
  fs st !! shard_path (file_index st) = files' !! shard_path (file_index st) →
  iteration (State files' (opened st) (stdout st) (all_music_data st)
                   (file_index st)) =
  (State files' (opened (iteration st).1) (stdout (iteration st).1)
         (all_music_data (iteration st).1) (file_index (iteration st).1),
   (iteration st).2).
Proof.
  intros Hf. unfold iteration, try_block, bind, load_json, extend, bind, lift.
  cbn [fs opened stdout all_music_data file_index]. rewrite <-Hf.
  destruct (fs st !! shard_path (file_index st)) as [[c|e]|]; cbn.
  - destruct c; reflexivity.
  - destruct (decide _); reflexivity.
  - reflexivity.
Qed.

Lemma iteration_fs st : fs (iteration st).1 = fs st.
Proof.
  destruct (iteration_cases st) as [(c & items & _ & _ & ->)|(lines & _ & _ & ->)];
    reflexivity.
Qed.

Lemma while_true_other_files fuel : ∀ st files',
  (∀ i, fs st !! shard_path i = files' !! shard_path i) →
  while_true fuel (State files' (opened st) (stdout st) (all_music_data st)
                         (file_index st)) =
  (λ res, (State files' (opened res.1) (stdout res.1) (all_music_data res.1)
                 (file_index res.1), res.2)) <$> while_true fuel st.
Proof.
  induction fuel as [|fuel IH]; intros st files' Hf; [done|].
  cbn [while_true]. rewrite iteration_other_files by apply Hf.
  pose proof (iteration_fs st) as Hfs.
  destruct (iteration st) as [st1 [| |[e|]]]; cbn [fst snd] in *; try done.
  apply IH. intros i. rewrite Hfs. apply Hf.
Qed.

(** The list [load_all_music_history] returns depends on the shard
    files only. *)
Lemma load_all_music_history_other_files fuel files files' :
  (∀ i, files !! shard_path i = files' !! shard_path i) →
  (λ res, res.2) <$> load_all_music_history fuel files' =
  (λ res, res.2) <$> load_all_music_history fuel files.
Proof.
  intros Hf. unfold load_all_music_history.
  pose proof (while_true_other_files fuel (initial files) files' Hf) as Hw.
  change (initial files')
    with (State files' (opened (initial files)) (stdout (initial files))
                (all_music_data (initial files)) (file_index (initial files))).
  rewrite Hw.
  destruct (while_true fuel (initial files)) as [[st [[]|e|]]|]; reflexivity.
Qed.

(** How the run ends depends on two of the names only. *)
Lemma analyse_names w w' :
  music_history w = music_history w' →
  podcast_history w = podcast_history w' →
  analyse w = analyse w'.
Proof. intros Hm Hp. unfold analyse. by rewrite Hm, Hp. Qed.

(** X9.  [YourLibrary.json] and [Wrapped2024.json] are loaded and never
    used: two file systems that differ in these two files only, be it
    in their content or in whether they exist at all, end the run in
    the same way, with the same summaries. *)
Theorem library_and_wrapped_are_never_used (files files' : gmap string file)
    (fuel : nat) :
  (∀ p, p ≠ library_path → p ≠ wrapped_path → files !! p = files' !! p) →
  snd <$> script fuel files = snd <$> script fuel files'.
Proof.
  intros Hf.
  assert (∀ i, files !! shard_path i = files' !! shard_path i) as Hshards.
  { intros i. apply Hf; [apply shard_path_not_library|apply shard_path_not_wrapped]. }
  pose proof (Hf podcast_path podcast_path_not_library podcast_path_not_wrapped)
    as Hpod.
  pose proof (load_all_music_history_other_files fuel files files' Hshards) as Hl.
  destruct (load_all_music_history fuel files) as [[st r]|] eqn:Hrun;
    destruct (load_all_music_history fuel files') as [[st' r']|] eqn:Hrun';
    try discriminate Hl.
  - injection Hl as ->.
    destruct (load_all_music_history_inv _ _ _ _ Hrun) as [Hr Hfs].
    destruct (load_all_music_history_inv _ _ _ _ Hrun') as [Hr' Hfs'].
    rewrite Hr in Hrun, Hrun'.
    destruct (load_data_cases _ _ _ _ Hrun Hfs) as (w & Hd & Hm & Hc).
    destruct (load_data_cases _ _ _ _ Hrun' Hfs') as (w' & Hd' & Hm' & Hc').
    unfold script. rewrite Hd, Hd'. cbn. f_equal.
    apply analyse_names; [congruence|].
    rewrite <-Hpod in Hc'.
    destruct (files !! podcast_path) as [[p|e]|];
      destruct Hc as [-> _], Hc' as [-> _]; reflexivity.
  - unfold script, load_data. by rewrite Hrun, Hrun'.
Qed.

Lemma library_and_wrapped_are_never_used_witness :
  snd <$> script 3 files_all = snd <$> script 3 files_no_library.
Proof.
  apply (library_and_wrapped_are_never_used files_all files_no_library 3).
  intros p Hl Hw. unfold files_all, files_no_library.
  destruct (decide (p = podcast_path)) as [->|Hp].
  - by rewrite !lookup_insert_eq.
  - rewrite (lookup_insert_ne _ podcast_path p) by done.
    rewrite (lookup_insert_ne _ library_path p) by done.
    rewrite (lookup_insert_ne _ wrapped_path p) by done.
    by rewrite (lookup_insert_ne _ podcast_path p) by done.
Defined.


(** *** A complete export *)

(** A frame [history_to_df] returns has a float column
    [minutesPlayed]. *)
Lemma history_to_df_minutes (data : list json) (df : DataFrame) :
  history_to_df data = Ok df →
  ∃ l, df !! "minutesPlayed" = Some (ColFloat l).
Proof.
  unfold history_to_df. intros H.
  repeat match type of H with
         | obind ?m _ = _ => destruct m eqn:?; cbn [obind] in H; try discriminate
         end.
  injection H as <-. rewrite lookup_insert_eq.
  match goal with
  | Ht : truediv ?c _ = Ok _ |- _ => destruct c; simplify_eq/=; eauto
  end.
Qed.

Lemma concat_records (shards : list (list play)) :
  concat (fmap (M:=list) to_json <$> shards) = to_json <$> concat shards.
Proof.
  induction shards as [|s shards IH]; [done|].
  cbn [fmap list_fmap concat]. rewrite fmap_app. f_equal. exact IH.
Qed.

(** X10.  When the four kinds of files are there (music shards 0 .. k-1 with
    records of the export, at least one in all, with timestamps in the
    export layout; a podcast history that normalises; the library and
    the wrapped summary), the run prints the success line with the
    number of music records and gets to the summaries, and these are
    the summaries of the two functions on the normalised frame of all
    the records of all the shards, in shard order. *)
Theorem script_summarises_all_shards (files : gmap string file)
    (shards : list (list play)) (evs : list event) (podcast : list json)
    (pdf : DataFrame) (lib wrap : json) (fuel : nat) :
  shards_present files 0 (fmap (M:=list) to_json <$> shards) →
  files !! shard_path (length shards) = None →
  files !! podcast_path = Some (FileJson (JArr podcast)) →
  files !! library_path = Some (FileJson lib) →
  files !! wrapped_path = Some (FileJson wrap) →
  concat shards ≠ [] →
  Forall2 row_of (concat shards) evs →
  history_to_df podcast = Ok pdf →
  length shards < fuel →
  ∃ w stats patterns,
    script fuel files = Some (w, Finished stats patterns) ∧
    last (stdout (io w)) = Some (success_line (length evs)) ∧
    plot_overall_stats (Globals (frame_of evs) pdf) =
      (Globals (frame_of evs) pdf, Ok stats) ∧
    snd (plot_listening_patterns (Globals (frame_of evs) pdf)) = Ok patterns.
Proof.
  intros Hp Hgap Hpod Hlib Hwrap Hne Hrows Hpdf Hfuel.
  pose proof (load_stops_missing files (fmap (M:=list) to_json <$> shards) fuel) as Hrun.
  rewrite length_fmap, concat_records in Hrun.
  specialize (Hrun Hp Hgap Hfuel).
  destruct (load_data_cases _ _ _ _ Hrun eq_refl) as (w & Hd & Hm & Hc).
  rewrite Hpod, Hlib, Hwrap in Hc. destruct Hc as [Hph Hout].
  rewrite length_fmap, (Forall2_length _ _ _ Hrows) in Hout.
  destruct (history_to_df_minutes _ _ Hpdf) as [pm Hpm].
  pose proof (plot_overall_stats_run _ pdf evs pm (holds_frame_of evs) Hpm) as Hos.
  pose proof (plot_listening_patterns_run _ pdf evs (holds_frame_of evs)) as Hlp.
  cbv zeta in Hlp.
  eexists w, _, _. split; [|split; [exact Hout|split; [exact Hos|]]].
  - unfold script. rewrite Hd. unfold analyse. rewrite Hm, Hph.
    cbn [read_name].
    rewrite (history_to_df_rows (concat shards) evs Hne Hrows).
    cbn [of_outcome history_to_df_value]. rewrite Hpdf. cbn [of_outcome].
    rewrite Hos. cbn [of_outcome]. rewrite Hlp. reflexivity.
  - by rewrite Hlp.
Qed.

Lemma script_summarises_all_shards_witness :
  ∃ w stats patterns,
    script 3 files_all = Some (w, Finished stats patterns) ∧
    last (stdout (io w)) =
      Some "All data files loaded successfully! Total music entries: 2" ∧
    plot_overall_stats (Globals (frame_of [event_a; event_b]) podcast_frame) =
      (Globals (frame_of [event_a; event_b]) podcast_frame, Ok stats) ∧
    snd (plot_listening_patterns
           (Globals (frame_of [event_a; event_b]) podcast_frame)) = Ok patterns.
Proof.
  apply (script_summarises_all_shards files_all [[play_a]; [play_b]]
           [event_a; event_b] [episode] podcast_frame (JObj []) (JObj []) 3).
  - intros [|[|i]] recs Hi; simplify_eq/=; reflexivity.
  - reflexivity.
  - reflexivity.
  - reflexivity.
  - reflexivity.
  - done.
  - repeat constructor; reflexivity.
  - reflexivity.
  - simpl. lia.
Defined.

End ToplevelFlow.

(* ===================================================================== *)
(** ** Normalisation: rows kept and fields needed *)
(* ===================================================================== *)

Module NormalisationFacts.
Import Measures Samples Fixtures PandasFacts AnalysisSpec.

(** *** One cell per record *)

Lemma strs_of_length cells l : strs_of cells = Some l → length l = length cells.
Proof.
  revert l. induction cells as [|[[]|] cells IH]; intros l Hl; simplify_eq/=;
    try done.
  destruct (strs_of cells) as [l'|]; simplify_eq/=. f_equal. by apply IH.
Qed.

Lemma ints_of_length cells l : ints_of cells = Some l → length l = length cells.
Proof.
  revert l. induction cells as [|[[]|] cells IH]; intros l Hl; simplify_eq/=;
    try done.
  destruct (ints_of cells) as [l'|]; simplify_eq/=. f_equal. by apply IH.
Qed.

Lemma infer_column_length cells c :
  infer_column cells = Ok c → column_length c = length cells.
Proof.
  unfold infer_column. intros Hc.
  destruct (strs_of cells) as [l|] eqn:Hs.
  - injection Hc as <-. by apply strs_of_length.
  - destruct (ints_of cells) as [l|] eqn:Hi; [|done].
    injection Hc as <-. by apply ints_of_length.
Qed.

Lemma add_column_inv data k acc df :
  add_column data k acc = Ok df →
  ∃ df0 c, acc = Ok df0 ∧ infer_column (json_get k <$> data) = Ok c ∧
           df = <[k:=c]> df0.
Proof.
  unfold add_column. destruct acc as [df0| |]; [|done..]. cbn [obind].
  destruct (infer_column _) as [c| |]; [|done..]. cbn [obind].
  intros [= <-]. by exists df0, c.
Qed.

Lemma foldr_add_column_inv data ks df :
  foldr (add_column data) (Ok ∅) ks = Ok df →
  ∀ k c, df !! k = Some c → k ∈ ks ∧ column_length c = length data.
Proof.
  revert df. induction ks as [|k0 ks IH]; intros df Hdf k c Hk.
  - injection Hdf as <-. by rewrite lookup_empty in Hk.
  - cbn [foldr] in Hdf.
    apply add_column_inv in Hdf as (df0 & c0 & Hacc & Hc0 & ->).
    destruct (decide (k0 = k)) as [->|Hne].
    + rewrite lookup_insert_eq in Hk. injection Hk as <-. split; [left|].
      rewrite (infer_column_length _ _ Hc0). by rewrite length_fmap.
    + rewrite lookup_insert_ne in Hk by done.
      destruct (IH _ Hacc k c Hk) as [Hin Hlen]. split; [by right|done].
Qed.

Lemma record_keys_elem data ks k :
  record_keys data = Some ks → k ∈ ks →
  ∃ j, j ∈ data ∧ is_Some (json_get k j).
Proof.
  revert ks. induction data as [|j data IH]; intros ks Hks Hk.
  - injection Hks as <-. by apply elem_of_nil in Hk.
  - cbn [record_keys] in Hks.
    destruct (json_keys j) as [ks0|] eqn:Hj; [|done].
    destruct (record_keys data) as [ks1|]; [|done].
    injection Hks as <-. apply elem_of_app in Hk as [Hk|Hk].
    + exists j. split; [left|].
      destruct j; simplify_eq/=.
      induction fields as [|[k' v] fields IHf]; [by apply elem_of_nil in Hk|].
      cbn [assoc]. destruct (decide (k' = k)); [by eexists|].
      apply IHf. rewrite fmap_cons in Hk.
      by apply elem_of_cons in Hk as [?|?].
    + destruct (IH _ eq_refl Hk) as (j' & Hj' & Hs). exists j'. split; [by right|done].
Qed.

(** The columns of the frame [pd.DataFrame] builds: each has a key that
    occurs in some record and one cell per record. *)
Lemma pd_DataFrame_columns data df k c :
  pd_DataFrame data = Ok df → df !! k = Some c →
  (∃ j, j ∈ data ∧ is_Some (json_get k j)) ∧ column_length c = length data.
Proof.
  unfold pd_DataFrame. destruct (record_keys data) as [ks|] eqn:Hks; [|done].
  intros Hdf Hk. destruct (foldr_add_column_inv _ _ _ Hdf k c Hk) as [Hin Hlen].
  split; [by eapply record_keys_elem|done].
Qed.

Lemma to_datetime_all_length l ts :
  to_datetime_all l = Ok ts → length ts = length l.
Proof.
  revert ts. induction l as [|s l IH]; intros ts Hts; simplify_eq/=; [done|].
  destruct (to_datetime s) as [t| |]; [|done..]. cbn [obind] in Hts.
  destruct (to_datetime_all l) as [ts'| |]; [|done..]. cbn [obind] in Hts.
  injection Hts as <-. simpl. f_equal. by apply IH.
Qed.

Lemma pd_to_datetime_inv c c' :
  pd_to_datetime c = Ok c' →
  ∃ ts, c' = ColTime ts ∧ length ts = column_length c.
Proof.
  destruct c as [l|l|l|l|l]; intros Hc; simplify_eq/=; eauto.
  - destruct (to_datetime_all l) as [ts| |] eqn:Hts; simplify_eq/=.
    exists ts. split; [done|]. by apply to_datetime_all_length.
  - eexists. split; [done|]. by rewrite length_fmap.
Qed.

Lemma truediv_inv c d c' :
  truediv c d = Ok c' →
  ∃ l, c' = ColFloat l ∧ length l = column_length c.
Proof.
  destruct c as [l|l|l|l|l]; intros Hc; simplify_eq/=;
    eexists; (split; [done|]); by rewrite length_fmap.
Qed.

(** What a successful call of [history_to_df] has done. *)
Lemma history_to_df_inv data df :
  history_to_df data = Ok df →
  ∃ df0 c ts m l,
    pd_DataFrame data = Ok df0 ∧
    df0 !! "endTime" = Some c ∧ pd_to_datetime c = Ok (ColTime ts) ∧
    length ts = column_length c ∧
    df0 !! "msPlayed" = Some m ∧ truediv m 60000 = Ok (ColFloat l) ∧
    length l = column_length m ∧
    df = <["minutesPlayed":=ColFloat l]>
         (<["date":=ColDate (dt_date <$> ts)]>
         (<["endTime":=ColTime ts]> df0)).
Proof.
  unfold history_to_df. intros H.
  destruct (pd_DataFrame data) as [df0| |] eqn:Hdf0; [|done..]. cbn [obind] in H.
  unfold getitem at 1 in H.
  destruct (df0 !! "endTime") as [c|] eqn:Hc; [|done]. cbn [obind] in H.
  destruct (pd_to_datetime c) as [c'| |] eqn:Hc'; [|done..]. cbn [obind] in H.
  destruct (pd_to_datetime_inv _ _ Hc') as (ts & -> & Hts).
  unfold getitem at 1 in H. rewrite lookup_insert_eq in H. cbn [obind dt] in H.
  unfold getitem at 1 in H.
  rewrite (lookup_insert_ne _ "date" "msPlayed") in H by done.
  rewrite (lookup_insert_ne _ "endTime" "msPlayed") in H by done.
  destruct (df0 !! "msPlayed") as [m|] eqn:Hm; [|done]. cbn [obind] in H.
  destruct (truediv m 60000) as [m'| |] eqn:Hm'; [|done..]. cbn [obind] in H.
  destruct (truediv_inv _ _ _ Hm') as (l & -> & Hl).
  injection H as <-. by exists df0, c, ts, m, l.
Qed.

(** X11.  [history_to_df] keeps every record: in the frame it returns, every
    column has as many cells as the list it was given has records. *)
Theorem history_to_df_keeps_every_record (data : list json) (df : DataFrame) :
  history_to_df data = Ok df →
  ∀ k c, df !! k = Some c → column_length c = length data.
Proof.
  intros (df0 & c0 & ts & m & l & Hdf0 & Hc0 & _ & Hts & Hm & _ & Hl & ->)%history_to_df_inv.
  pose proof (pd_DataFrame_columns _ _ _ _ Hdf0 Hc0) as [_ Hlen0].
  pose proof (pd_DataFrame_columns _ _ _ _ Hdf0 Hm) as [_ Hlenm].
  intros k c Hk.
  destruct (decide (k = "minutesPlayed")) as [->|?].
  { rewrite lookup_insert_eq in Hk. injection Hk as <-. simpl. congruence. }
  rewrite lookup_insert_ne in Hk by done.
  destruct (decide (k = "date")) as [->|?].
  { rewrite lookup_insert_eq in Hk. injection Hk as <-. simpl.
    rewrite length_fmap. congruence. }
  rewrite lookup_insert_ne in Hk by done.
  destruct (decide (k = "endTime")) as [->|?].
  { rewrite lookup_insert_eq in Hk. injection Hk as <-. simpl. congruence. }
  rewrite lookup_insert_ne in Hk by done.
  by destruct (pd_DataFrame_columns _ _ _ _ Hdf0 Hk).
Qed.

Lemma history_to_df_keeps_every_record_witness :
  history_to_df [episode] = Ok podcast_frame ∧
  podcast_frame !! "podcastName" = Some (ColStr ["P"]) ∧
  column_length (ColStr ["P"]) = length [episode].
Proof.
  split; [reflexivity|]. split; [reflexivity|].
  apply (history_to_df_keeps_every_record [episode] podcast_frame eq_refl
           "podcastName" (ColStr ["P"])).
  reflexivity.
Defined.

(** *** Records without the two fields *)

Lemma pd_DataFrame_no_column data df k :
  pd_DataFrame data = Ok df →
  (∀ j, j ∈ data → json_get k j = None) →
  df !! k = None.
Proof.
  intros Hdf Hno. destruct (df !! k) as [c|] eqn:Hk; [|done].
  destruct (pd_DataFrame_columns _ _ _ _ Hdf Hk) as [(j & Hj & Hs) _].
  rewrite (Hno j Hj) in Hs. by destruct Hs.
Qed.

(** X12.  [history_to_df] needs [endTime]: when the records make a frame and
    none of them has an [endTime], line 52 raises [KeyError] for it.
    The empty list is such a list of records. *)
Theorem history_to_df_needs_endTime (data : list json) (df0 : DataFrame) :
  pd_DataFrame data = Ok df0 →
  (∀ j, j ∈ data → json_get "endTime" j = None) →
  history_to_df data = Raise (Exn KeyError "'endTime'").
Proof.
  intros Hdf0 Hno. unfold history_to_df. rewrite Hdf0. cbn [obind].
  unfold getitem. by rewrite (pd_DataFrame_no_column _ _ _ Hdf0 Hno).
Qed.

Lemma history_to_df_needs_endTime_witness :
  history_to_df [JObj [("msPlayed", JInt 180000)]] =
    Raise (Exn KeyError "'endTime'").
Proof.
  apply (history_to_df_needs_endTime [JObj [("msPlayed", JInt 180000)]]
           {[ "msPlayed" := ColInt [180000%Z] ]}).
  - reflexivity.
  - intros j ->%list_elem_of_singleton. reflexivity.
Defined.

(** X13.  [history_to_df] needs [msPlayed]: when the timestamps are there and
    parse, and no record has an [msPlayed], line 55 raises [KeyError]
    for it. *)
Theorem history_to_df_needs_msPlayed (data : list json) (df0 : DataFrame)
    (c c' : column) :
  pd_DataFrame data = Ok df0 →
  df0 !! "endTime" = Some c →
  pd_to_datetime c = Ok c' →
  (∀ j, j ∈ data → json_get "msPlayed" j = None) →
  history_to_df data = Raise (Exn KeyError "'msPlayed'").
Proof.
  intros Hdf0 Hc Hc' Hno. unfold history_to_df. rewrite Hdf0. cbn [obind].
  unfold getitem at 1. rewrite Hc. cbn [obind]. rewrite Hc'. cbn [obind].
  destruct (pd_to_datetime_inv _ _ Hc') as (ts & -> & _).
  unfold getitem at 1. rewrite lookup_insert_eq. cbn [obind dt].
  unfold getitem at 1.
  rewrite (lookup_insert_ne _ "date" "msPlayed") by done.
  rewrite (lookup_insert_ne _ "endTime" "msPlayed") by done.
  by rewrite (pd_DataFrame_no_column _ _ _ Hdf0 Hno).
Qed.

Lemma history_to_df_needs_msPlayed_witness :
  history_to_df [JObj [("endTime", JStr "2024-01-01 10:00")]] =
    Raise (Exn KeyError "'msPlayed'").
Proof.
  apply (history_to_df_needs_msPlayed
           [JObj [("endTime", JStr "2024-01-01 10:00")]]
           {[ "endTime" := ColStr ["2024-01-01 10:00"] ]}
           (ColStr ["2024-01-01 10:00"])
           (ColTime [Timestamp_ 2024 1 1 10 0])).
  - reflexivity.
  - reflexivity.
  - reflexivity.
  - intros j ->%list_elem_of_singleton. reflexivity.
Defined.

End NormalisationFacts.

(* ===================================================================== *)
(** ** Normalisation: month labels *)
(* ===================================================================== *)

Module MonthLabels.
Import Measures Samples Fixtures PandasFacts AnalysisSpec.

Local Open Scope Z_scope.

Lemma digit_inv (c : ascii) (d : Z) :
  digit c = Some d → 0 ≤ d ≤ 9 ∧ c = ascii_of_nat (Z.to_nat (d + 48)).
Proof.
  unfold digit. intros Hd.
  destruct (_ && _) eqn:Hr; [|done]. injection Hd as <-.
  apply andb_true_iff in Hr as [H1%Z.leb_le H2%Z.leb_le].
  split; [lia|]. replace (Z.of_nat (nat_of_ascii c) - 48 + 48)
    with (Z.of_nat (nat_of_ascii c)) by lia.
  by rewrite Nat2Z.id, ascii_nat_embedding.
Qed.

Local Ltac literal_chars H :=
  repeat match type of H with
         | context [match ?c with Ascii _ _ _ _ _ _ _ _ => _ end] =>
             is_var c; destruct c as [[] [] [] [] [] [] [] []];
             cbv beta iota in H; try discriminate H
         end.

Lemma scan_prefix (s : string) (t : Timestamp) :
  scan s = Some t →
  ∃ y1 y2 y3 y4 m1 m2 rest,
    s = String y1 (String y2 (String y3 (String y4
          (String "-" (String m1 (String m2 rest)))))) ∧
    number 0 [y1; y2; y3; y4] = Some (year t) ∧
    number 0 [m1; m2] = Some (month t).
Proof.
  unfold scan. intros Hs.
  do 16 (destruct s as [|? s];
         [cbn [list_ascii_of_string] in Hs; cbv beta iota in Hs;
          literal_chars Hs; discriminate Hs|]).
  destruct s; cbn [list_ascii_of_string] in Hs; cbv beta iota in Hs;
    literal_chars Hs; try discriminate Hs.
  repeat match type of Hs with
         | context [match number 0 ?l with _ => _ end] =>
             destruct (number 0 l) eqn:?; [|discriminate Hs]
         end.
  injection Hs as <-. do 7 eexists. split; [reflexivity|]. split; assumption.
Qed.


(** The decimal digits of a number below 10000, and of one below 100,
    as [strftime] writes them. *)
Lemma pad4_digits (a b c d : Z) :
  0 ≤ a ≤ 9 → 0 ≤ b ≤ 9 → 0 ≤ c ≤ 9 → 0 ≤ d ≤ 9 →
  pad4 (10 * (10 * (10 * (10 * 0 + a) + b) + c) + d) =
  String (ascii_of_nat (Z.to_nat (a + 48)))
    (String (ascii_of_nat (Z.to_nat (b + 48)))
       (String (ascii_of_nat (Z.to_nat (c + 48)))
          (String (ascii_of_nat (Z.to_nat (d + 48))) ""))).
Proof.
  intros Ha Hb Hc Hd.
  assert (forallb (λ a, forallb (λ b, forallb (λ c, forallb (λ d,
            String.eqb
              (pad4 (10 * (10 * (10 * (10 * 0 + a) + b) + c) + d))
              (String (ascii_of_nat (Z.to_nat (a + 48)))
                 (String (ascii_of_nat (Z.to_nat (b + 48)))
                    (String (ascii_of_nat (Z.to_nat (c + 48)))
                       (String (ascii_of_nat (Z.to_nat (d + 48))) "")))))
            (seqZ 0 10)) (seqZ 0 10)) (seqZ 0 10)) (seqZ 0 10) = true) as Hall
    by (vm_compute; reflexivity).
  rewrite forallb_forall in Hall.
  specialize (Hall a ltac:(apply list_elem_of_In, elem_of_seqZ; lia)).
  rewrite forallb_forall in Hall.
  specialize (Hall b ltac:(apply list_elem_of_In, elem_of_seqZ; lia)).
  rewrite forallb_forall in Hall.
  specialize (Hall c ltac:(apply list_elem_of_In, elem_of_seqZ; lia)).
  rewrite forallb_forall in Hall.
  specialize (Hall d ltac:(apply list_elem_of_In, elem_of_seqZ; lia)).
  by apply String.eqb_eq.
Qed.

Lemma pad2_digits (a b : Z) :
  0 ≤ a ≤ 9 → 0 ≤ b ≤ 9 →
  pad2 (10 * (10 * 0 + a) + b) =
  String (ascii_of_nat (Z.to_nat (a + 48)))
    (String (ascii_of_nat (Z.to_nat (b + 48))) "").
Proof.
  intros Ha Hb.
  assert (forallb (λ a, forallb (λ b,
            String.eqb
              (pad2 (10 * (10 * 0 + a) + b))
              (String (ascii_of_nat (Z.to_nat (a + 48)))
                 (String (ascii_of_nat (Z.to_nat (b + 48))) "")))
            (seqZ 0 10)) (seqZ 0 10) = true) as Hall
    by (vm_compute; reflexivity).
  rewrite forallb_forall in Hall.
  specialize (Hall a ltac:(apply list_elem_of_In, elem_of_seqZ; lia)).
  rewrite forallb_forall in Hall.
  specialize (Hall b ltac:(apply list_elem_of_In, elem_of_seqZ; lia)).
  by apply String.eqb_eq.
Qed.

Lemma number4_inv (c1 c2 c3 c4 : ascii) (n : Z) :
  number 0 [c1; c2; c3; c4] = Some n →
  pad4 n = String c1 (String c2 (String c3 (String c4 ""))).
Proof.
  cbn [number]. intros Hn.
  destruct (digit c1) as [d1|] eqn:H1; [|done].
  destruct (digit c2) as [d2|] eqn:H2; [|done].
  destruct (digit c3) as [d3|] eqn:H3; [|done].
  destruct (digit c4) as [d4|] eqn:H4; [|done].
  injection Hn as <-.
  apply digit_inv in H1 as [? ->], H2 as [? ->], H3 as [? ->], H4 as [? ->].
  by apply pad4_digits.
Qed.

Lemma number2_inv (c1 c2 : ascii) (n : Z) :
  number 0 [c1; c2] = Some n → pad2 n = String c1 (String c2 "").
Proof.
  cbn [number]. intros Hn.
  destruct (digit c1) as [d1|] eqn:H1; [|done].
  destruct (digit c2) as [d2|] eqn:H2; [|done].
  injection Hn as <-.
  apply digit_inv in H1 as [? ->], H2 as [? ->].
  by apply pad2_digits.
Qed.

(** The month label of a parsed timestamp is what the string it was
    parsed from starts with. *)
Lemma to_datetime_month_prefix (s : string) (t : Timestamp) :
  to_datetime s = Ok t → strftime_Y_m t = substring 0 7 s.
Proof.
  unfold to_datetime. destruct (scan s) as [t'|] eqn:Hs; [|done].
  destruct (valid_timestamp t'); [|done]. intros [= ->].
  apply scan_prefix in Hs as (y1 & y2 & y3 & y4 & m1 & m2 & rest & -> & Hy & Hm).
  unfold strftime_Y_m.
  rewrite (number4_inv _ _ _ _ _ Hy), (number2_inv _ _ _ Hm).
  cbn. by destruct rest.
Qed.

Local Close Scope Z_scope.

Lemma month_labels_rows (plays : list play) (evs : list event) :
  Forall2 row_of plays evs →
  strftime_Y_m <$> (endTime <$> evs) =
  (λ r, substring 0 7 (p_endTime r)) <$> plays.
Proof.
  induction 1 as [|r e plays evs (Ht & _) _ IH]; [done|].
  rewrite !fmap_cons, IH. f_equal. by apply to_datetime_month_prefix.
Qed.

(** X14.  For records of the export with timestamps in the export layout, the
    month under which [plot_listening_patterns] files a record is the
    first seven characters of its [endTime] string, the part
    [YYYY-MM]: this is what the [month] column it stores holds, row by
    row, and the monthly summary has one row for each such prefix and
    no other row. *)
Theorem month_labels_are_endTime_prefixes (plays : list play)
    (evs : list event) (pdf : DataFrame) :
  plays ≠ [] →
  Forall2 row_of plays evs →
  ∃ df g p,
    history_to_df (to_json <$> plays) = Ok df ∧
    plot_listening_patterns (Globals df pdf) = (g, Ok p) ∧
    music_df g !! "month" =
      Some (ColStr ((λ r, substring 0 7 (p_endTime r)) <$> plays)) ∧
    (∀ m, m ∈ (monthly_listening p).*1 ↔
          ∃ r, r ∈ plays ∧ substring 0 7 (p_endTime r) = m).
Proof.
  intros Hne Hrows. eexists _, _, _.
  split; [by apply history_to_df_rows|].
  split; [apply (plot_listening_patterns_run _ pdf evs), holds_frame_of|].
  cbn [music_df monthly_listening]. split.
  - rewrite lookup_insert_eq. by rewrite (month_labels_rows plays evs).
  - intros m. unfold reset_index.
    rewrite groupby_sum_keys, elem_of_group_keys, (month_labels_rows plays evs) by done.
    rewrite list_elem_of_fmap. split; intros (r & ? & ?); exists r; done.
Qed.

Lemma month_labels_are_endTime_prefixes_witness :
  ∃ df g p,
    history_to_df (to_json <$> [play_a; play_b]) = Ok df ∧
    plot_listening_patterns (Globals df podcasts) = (g, Ok p) ∧
    music_df g !! "month" =
      Some (ColStr ((λ r, substring 0 7 (p_endTime r)) <$> [play_a; play_b])) ∧
    (∀ m, m ∈ (monthly_listening p).*1 ↔
          ∃ r, r ∈ [play_a; play_b] ∧ substring 0 7 (p_endTime r) = m).
Proof.
  apply (month_labels_are_endTime_prefixes [play_a; play_b]
           [event_a; event_b] podcasts).
  - done.
  - repeat constructor; by vm_compute.
Defined.

End MonthLabels.

(* ===================================================================== *)
(** ** The summaries of [plot_overall_stats], row by row *)
(* ===================================================================== *)

Module SummaryFacts.
Import Measures Samples Fixtures PandasFacts AnalysisSpec.

(** *** The entries of the two top-ten summaries *)

(** X15.  On a normalised music frame, every entry of the top-artists summary
    is an artist of the input with the sum of the minutes of exactly
    the rows of this artist, every entry of the top-tracks summary is a
    track of the input with the number of its rows (at least one), and
    no artist and no track is listed twice. *)
Theorem top_entries_are_group_totals (df pdf : DataFrame) (evs : list event)
    (pm : list Q) :
  holds df evs →
  pdf !! "minutesPlayed" = Some (ColFloat pm) →
  ∃ stats,
    plot_overall_stats (Globals df pdf) = (Globals df pdf, Ok stats) ∧
    NoDup (top_artists stats).*1 ∧
    NoDup (track_counts stats).*1 ∧
    (∀ a v, (a, v) ∈ top_artists stats →
       a ∈ artistName <$> evs ∧ v = Qsum (minutesPlayed <$> by_artist a evs)) ∧
    (∀ t n, (t, n) ∈ track_counts stats →
       t ∈ trackName <$> evs ∧ n = length (by_track t evs) ∧ 0 < n).
Proof.
  intros Hdf Hp. eexists. split; [by eapply plot_overall_stats_run|].
  cbn [top_artists track_counts].
  split; [|split; [|split]].
  - apply (head_sort_values_desc_keys Qle).
    rewrite groupby_sum_keys. apply group_keys_NoDup.
  - apply (head_sort_values_desc_keys le).
    rewrite groupby_count_keys. apply group_keys_NoDup.
  - intros a v Hin.
    pose proof (elem_of_submseteq _ _ _ Hin
                  (head_sort_values_desc_submseteq Qle 10 _)) as Hin'.
    rewrite groupby_sum_rows in Hin'.
    apply list_elem_of_fmap in Hin' as (k & [= -> ->] & Hk).
    apply elem_of_group_keys in Hk. done.
  - intros t n Hin.
    pose proof (elem_of_submseteq _ _ _ Hin
                  (head_sort_values_desc_submseteq le 10 _)) as Hin'.
    rewrite groupby_count_rows in Hin'.
    apply list_elem_of_fmap in Hin' as (k & [= -> ->] & Hk).
    apply elem_of_group_keys in Hk. split; [done|]. split; [done|].
    apply list_elem_of_fmap in Hk as (e & Hk & He).
    assert (e ∈ by_track k evs) as Hf by (by apply list_elem_of_filter).
    unfold by_track in *. destruct (filter _ evs); [by apply elem_of_nil in Hf|].
    simpl. lia.
Qed.

Lemma top_entries_are_group_totals_witness :
  ∃ stats,
    plot_overall_stats globals_two = (globals_two, Ok stats) ∧
    NoDup (top_artists stats).*1 ∧
    NoDup (track_counts stats).*1 ∧
    (∀ a v, (a, v) ∈ top_artists stats →
       a ∈ artistName <$> [event_a; event_b] ∧
       v = Qsum (minutesPlayed <$> by_artist a [event_a; event_b])) ∧
    (∀ t n, (t, n) ∈ track_counts stats →
       t ∈ trackName <$> [event_a; event_b] ∧
       n = length (by_track t [event_a; event_b]) ∧ 0 < n).
Proof.
  apply (top_entries_are_group_totals _ _ [event_a; event_b] []).
  - repeat split; by vm_compute.
  - by vm_compute.
Defined.

(** X16.  On a normalised music frame, the two top-ten summaries have ten
    entries, or one per artist (per track) when there are fewer than
    ten, and what they leave out is not above what they list: an artist
    that is not listed has no more minutes than any artist listed, a
    track that is not listed has no more plays than any track listed. *)
Theorem top_ten_are_the_highest (df pdf : DataFrame) (evs : list event)
    (pm : list Q) :
  holds df evs →
  pdf !! "minutesPlayed" = Some (ColFloat pm) →
  ∃ stats,
    plot_overall_stats (Globals df pdf) = (Globals df pdf, Ok stats) ∧
    length (top_artists stats) =
      10 `min` length (remove_dups (artistName <$> evs)) ∧
    length (track_counts stats) =
      10 `min` length (remove_dups (trackName <$> evs)) ∧
    (∀ a v e, (a, v) ∈ top_artists stats → e ∈ evs →
       artistName e ∉ (top_artists stats).*1 →
       (Qsum (minutesPlayed <$> by_artist (artistName e) evs) <= v)%Q) ∧
    (∀ t n e, (t, n) ∈ track_counts stats → e ∈ evs →
       trackName e ∉ (track_counts stats).*1 →
       length (by_track (trackName e) evs) ≤ n).
Proof.
  intros Hdf Hp. eexists. split; [by eapply plot_overall_stats_run|].
  cbn [top_artists track_counts].
  split; [|split; [|split]].
  - rewrite (head_sort_values_desc_length Qle).
    rewrite <-(length_fmap fst (groupby_sum _ _ _)), groupby_sum_keys.
    by rewrite group_keys_perm.
  - rewrite (head_sort_values_desc_length le).
    rewrite <-(length_fmap fst (groupby_count _ _ _)), groupby_count_keys.
    by rewrite group_keys_perm.
  - intros a v e Hin He Hout.
    refine (head_sort_values_desc_dominates Qle 10 _ (a, v)
             (artistName e, Qsum (minutesPlayed <$> by_artist (artistName e) evs))
             Hin _ _).
    + rewrite groupby_sum_rows. apply list_elem_of_fmap.
      exists (artistName e). split; [done|].
      apply elem_of_group_keys, list_elem_of_fmap. by exists e.
    + intros Hin'. apply Hout. apply list_elem_of_fmap. by eexists (_, _).
  - intros t n e Hin He Hout.
    refine (head_sort_values_desc_dominates le 10 _ (t, n)
             (trackName e, length (by_track (trackName e) evs)) Hin _ _).
    + rewrite groupby_count_rows. apply list_elem_of_fmap.
      exists (trackName e). split; [done|].
      apply elem_of_group_keys, list_elem_of_fmap. by exists e.
    + intros Hin'. apply Hout. apply list_elem_of_fmap. by eexists (_, _).
Qed.

Lemma top_ten_are_the_highest_witness :
  ∃ stats,
    plot_overall_stats globals_two = (globals_two, Ok stats) ∧
    length (top_artists stats) =
      10 `min` length (remove_dups (artistName <$> [event_a; event_b])) ∧
    length (track_counts stats) =
      10 `min` length (remove_dups (trackName <$> [event_a; event_b])) ∧
    (∀ a v e, (a, v) ∈ top_artists stats → e ∈ [event_a; event_b] →
       artistName e ∉ (top_artists stats).*1 →
       (Qsum (minutesPlayed <$> by_artist (artistName e) [event_a; event_b])
        <= v)%Q) ∧
    (∀ t n e, (t, n) ∈ track_counts stats → e ∈ [event_a; event_b] →
       trackName e ∉ (track_counts stats).*1 →
       length (by_track (trackName e) [event_a; event_b]) ≤ n).
Proof.
  apply (top_ten_are_the_highest _ _ [event_a; event_b] []).
  - repeat split; by vm_compute.
  - by vm_compute.
Defined.

(** X17.  On a normalised music frame, the daily summary has one row for each
    calendar date on which some row of the input ends and none for any
    other date, in strictly ascending order of the date, each with the
    sum of the minutes of the rows of that date; the dates are turned
    into the timestamps of their midnights. *)
Theorem daily_listening_is_chronological (df pdf : DataFrame)
    (evs : list event) (pm : list Q) :
  holds df evs →
  pdf !! "minutesPlayed" = Some (ColFloat pm) →
  ∃ stats ds,
    plot_overall_stats (Globals df pdf) = (Globals df pdf, Ok stats) ∧
    daily_listening stats =
      (λ d, (date_to_datetime d,
             Qsum (minutesPlayed <$> filter (λ e, date e = d) evs))) <$> ds ∧
    StronglySorted date_le ds ∧
    NoDup ds ∧
    (∀ d, d ∈ ds ↔ ∃ e, e ∈ evs ∧ date e = d).
Proof.
  intros Hdf Hp. eexists _, (group_keys date_le (date <$> evs)).
  split; [by eapply plot_overall_stats_run|].
  cbn [daily_listening].
  split; [|split; [|split]].
  - rewrite groupby_sum_rows, <-list_fmap_compose. done.
  - apply group_keys_sorted; apply _.
  - apply group_keys_NoDup.
  - intros d. rewrite elem_of_group_keys, list_elem_of_fmap.
    split; intros (e & ? & ?); exists e; done.
Qed.

Lemma daily_listening_is_chronological_witness :
  ∃ stats ds,
    plot_overall_stats globals_two = (globals_two, Ok stats) ∧
    daily_listening stats =
      (λ d, (date_to_datetime d,
             Qsum (minutesPlayed <$>
                   filter (λ e, date e = d) [event_a; event_b]))) <$> ds ∧
    StronglySorted date_le ds ∧
    NoDup ds ∧
    (∀ d, d ∈ ds ↔ ∃ e, e ∈ [event_a; event_b] ∧ date e = d).
Proof.
  apply (daily_listening_is_chronological _ _ [event_a; event_b] []).
  - repeat split; by vm_compute.
  - by vm_compute.
Defined.

End SummaryFacts.

(* ===================================================================== *)
(** ** The summaries in either order, and every row in one bucket *)
(* ===================================================================== *)

Module SummaryFlow.
Import Measures Samples Fixtures PandasFacts AnalysisSpec SummaryFacts.

(** *** Calling the two functions in either order, or again *)

(** [plot_overall_stats] reads four columns of the music frame and one
    of the podcast frame; the columns [plot_listening_patterns] stores
    are not among them. *)
Lemma plot_overall_stats_reads (g g' : globals) :
  same_but_derived g g' →
  snd (plot_overall_stats g') = snd (plot_overall_stats g).
Proof.
  intros [Hp Hm].
  pose proof (Hm "minutesPlayed" ltac:(by apply (bool_decide_unpack _))) as H1.
  pose proof (Hm "artistName" ltac:(by apply (bool_decide_unpack _))) as H2.
  pose proof (Hm "date" ltac:(by apply (bool_decide_unpack _))) as H3.
  pose proof (Hm "trackName" ltac:(by apply (bool_decide_unpack _))) as H4.
  destruct g as [m p], g' as [m' p']. cbn [music_df podcast_df] in *. subst p'.
  cbv [plot_overall_stats bind music podcast lift getitem ret music_df podcast_df].
  rewrite H1, H2, H3, H4.
  destruct (m !! "minutesPlayed") as [c1|]; [|reflexivity].
  destruct (as_float c1) as [l1| |]; [|reflexivity..].
  destruct (p !! "minutesPlayed") as [c2|]; [|reflexivity].
  destruct (as_float c2) as [l2| |]; [|reflexivity..].
  destruct (m !! "artistName") as [c3|]; [|reflexivity].
  destruct (as_str c3) as [l3| |]; [|reflexivity..].
  destruct (m !! "date") as [c4|]; [|reflexivity].
  destruct (as_date c4) as [l4| |]; [|reflexivity..].
  destruct (m !! "trackName") as [c5|]; [|reflexivity].
  destruct (as_str c5) as [l5| |]; reflexivity.
Qed.

(** X18.  The summaries of [plot_overall_stats] do not depend on whether
    [plot_listening_patterns] has run before it: on any two frames, and
    however the two calls end, [plot_overall_stats] gives after a call
    of [plot_listening_patterns] what it gives without that call. *)
Theorem plot_overall_stats_after_patterns (g : globals) :
  snd (plot_overall_stats (fst (plot_listening_patterns g))) =
  snd (plot_overall_stats g).
Proof.
  apply plot_overall_stats_reads, plot_listening_patterns_same_but_derived.
Qed.

Lemma holds_derived (df : DataFrame) (evs : list event) (k : string) (c : column) :
  k ∈ derived_columns → holds df evs → holds (<[k:=c]> df) evs.
Proof.
  intros Hk (Ht & Ha & Hk' & Hm & Hd & Hf). unfold holds.
  rewrite !lookup_insert_ne; [done|..]; intros ->;
    revert Hk; by apply (bool_decide_unpack _).
Qed.

(** X19.  A second call of [plot_listening_patterns] on a normalised music
    frame changes nothing any more: it stores the three derived columns
    the first call stored, so the frames stay as the first call left
    them, and it computes the same summaries. *)
Theorem plot_listening_patterns_twice (df pdf : DataFrame) (evs : list event) :
  holds df evs →
  ∃ g p,
    plot_listening_patterns (Globals df pdf) = (g, Ok p) ∧
    plot_listening_patterns g = (g, Ok p).
Proof.
  intros Hdf.
  pose proof (plot_listening_patterns_run df pdf evs Hdf) as H1. cbv zeta in H1.
  eexists _, _. split; [exact H1|].
  set (df' := <["month":=_]> (<["day_of_week":=_]> (<["hour":=_]> df))) in *.
  assert (holds df' evs) as Hdf'.
  { unfold df'. repeat (apply holds_derived;
      [by apply (bool_decide_unpack _)|]). done. }
  pose proof (plot_listening_patterns_run df' pdf evs Hdf') as H2. cbv zeta in H2.
  rewrite H2.
  assert (<["month":=ColStr (strftime_Y_m <$> (endTime <$> evs))]>
          (<["day_of_week":=ColStr (day_name <$> (endTime <$> evs))]>
           (<["hour":=ColInt (dt_hour <$> (endTime <$> evs))]> df')) = df') as ->;
    [|reflexivity].
  apply map_eq. intros k. unfold df'.
  destruct (decide (k = "month")) as [->|?]; [by rewrite !lookup_insert_eq|].
  rewrite (lookup_insert_ne _ "month" k) by done.
  destruct (decide (k = "day_of_week")) as [->|?].
  { rewrite lookup_insert_eq.
    by rewrite (lookup_insert_ne _ "month" "day_of_week"), lookup_insert_eq. }
  rewrite (lookup_insert_ne _ "day_of_week" k) by done.
  destruct (decide (k = "hour")) as [->|?].
  { rewrite lookup_insert_eq.
    rewrite (lookup_insert_ne _ "month" "hour") by done.
    by rewrite (lookup_insert_ne _ "day_of_week" "hour"), lookup_insert_eq. }
  by rewrite (lookup_insert_ne _ "hour" k).
Qed.

Lemma plot_listening_patterns_twice_witness :
  ∃ g p,
    plot_listening_patterns globals_two = (g, Ok p) ∧
    plot_listening_patterns g = (g, Ok p).
Proof.
  apply (plot_listening_patterns_twice _ podcasts [event_a; event_b]).
  repeat split; by vm_compute.
Defined.

(** *** Every row in one bucket *)

Lemma day_name_in_day_order (t : Timestamp) : day_name t ∈ day_order.
Proof.
  unfold day_name.
  assert (0 ≤ weekday t < 7)%Z as Hw by (unfold weekday; apply Z.mod_pos_bound; lia).
  destruct (Z.to_nat (weekday t)) as [|[|[|[|[|[|[|n]]]]]]] eqn:Hn;
    [cbn; unfold day_order;
     repeat first [apply list_elem_of_here | apply list_elem_of_further]..|lia].
Qed.

Lemma NoDup_day_order : NoDup day_order.
Proof. unfold day_order. apply (bool_decide_unpack _). by vm_compute. Qed.

(** X20.  On a normalised music frame, each of the three distributions of
    [plot_listening_patterns] counts every row once: no hour, no day and
    no month is listed twice, and the rows of the buckets of a
    distribution, taken together, are the rows of the frame, each of
    them once.  For the day-of-week summary this says that [reindex]
    drops no row: the day name of every row is one of its seven
    labels. *)
Theorem distributions_count_every_row_once (df pdf : DataFrame)
    (evs : list event) :
  holds df evs →
  ∃ g p,
    plot_listening_patterns (Globals df pdf) = (g, Ok p) ∧
    NoDup (hourly_listening p).*1 ∧
    concat ((λ h, filter (λ e, hour (endTime e) = h) evs)
              <$> (hourly_listening p).*1) ≡ₚ evs ∧
    NoDup (weekly_listening p).*1 ∧
    concat ((λ d, filter (λ e, day_name (endTime e) = d) evs)
              <$> (weekly_listening p).*1) ≡ₚ evs ∧
    NoDup (monthly_listening p).*1 ∧
    concat ((λ m, filter (λ e, strftime_Y_m (endTime e) = m) evs)
              <$> (monthly_listening p).*1) ≡ₚ evs.
Proof.
  intros Hdf. eexists _, _. split; [by eapply plot_listening_patterns_run|].
  cbn [hourly_listening weekly_listening monthly_listening]. unfold reset_index.
  rewrite !groupby_sum_keys, reindex_labels, <-!list_fmap_compose.
  split; [apply group_keys_NoDup|]. split.
  { apply groups_partition; [apply group_keys_NoDup|].
    intros e He. apply elem_of_group_keys, list_elem_of_fmap. by exists e. }
  split; [apply NoDup_day_order|]. split.
  { apply groups_partition; [apply NoDup_day_order|].
    intros e He. apply day_name_in_day_order. }
  split; [apply group_keys_NoDup|].
  apply groups_partition; [apply group_keys_NoDup|].
  intros e He. apply elem_of_group_keys, list_elem_of_fmap. by exists e.
Qed.

Lemma distributions_count_every_row_once_witness :
  ∃ g p,
    plot_listening_patterns globals_two = (g, Ok p) ∧
    NoDup (hourly_listening p).*1 ∧
    concat ((λ h, filter (λ e, hour (endTime e) = h) [event_a; event_b])
              <$> (hourly_listening p).*1) ≡ₚ [event_a; event_b] ∧
    NoDup (weekly_listening p).*1 ∧
    concat ((λ d, filter (λ e, day_name (endTime e) = d) [event_a; event_b])
              <$> (weekly_listening p).*1) ≡ₚ [event_a; event_b] ∧
    NoDup (monthly_listening p).*1 ∧
    concat ((λ m, filter (λ e, strftime_Y_m (endTime e) = m) [event_a; event_b])
              <$> (monthly_listening p).*1) ≡ₚ [event_a; event_b].
Proof.
  apply (distributions_count_every_row_once _ podcasts [event_a; event_b]).
  repeat split; by vm_compute.
Defined.

(** *** The threshold in milliseconds *)

(** X21.  On a normalised music frame, the rows the play-duration histogram is
    drawn from are exactly the rows played for more than 6000 ms: a
    play of six seconds or less counts as a skip. *)
Theorem valid_plays_are_longer_than_six_seconds (df pdf : DataFrame)
    (evs : list event) :
  holds df evs →
  ∃ g p,
    plot_listening_patterns (Globals df pdf) = (g, Ok p) ∧
    holds (valid_plays p) (filter (λ e, (6000 < msPlayed e)%Z) evs) ∧
    durations p = minutesPlayed <$> filter (λ e, (6000 < msPlayed e)%Z) evs.
Proof.
  intros Hdf. eexists _, _. split; [by eapply plot_listening_patterns_run|].
  cbn [valid_plays durations].
  rewrite <-(list_filter_iff (λ e, (1 # 10 < minutesPlayed e)%Q)
               (λ e, (6000 < msPlayed e)%Z) evs minutesPlayed_gt_tenth).
  split; [by apply valid_rows_holds|].
  by rewrite gt_fmap, mask_select_fmap.
Qed.

Lemma valid_plays_are_longer_than_six_seconds_witness :
  ∃ g p,
    plot_listening_patterns globals_two = (g, Ok p) ∧
    holds (valid_plays p)
      (filter (λ e, (6000 < msPlayed e)%Z) [event_a; event_b]) ∧
    durations p =
      minutesPlayed <$> filter (λ e, (6000 < msPlayed e)%Z) [event_a; event_b].
Proof.
  apply (valid_plays_are_longer_than_six_seconds _ podcasts [event_a; event_b]).
  repeat split; by vm_compute.
Defined.

End SummaryFlow.

(* ===================================================================== *)
(** ** The buckets of [plot_listening_patterns] *)
(* ===================================================================== *)

Module PatternFacts.
Import Measures Samples Fixtures PandasFacts AnalysisSpec SummaryFacts.

(** *** What a bucket holds *)

(** X22.  On a normalised music frame, a bucket of a distribution holds the
    sum of [minutesPlayed] over exactly the rows that fall into it: the
    rows ending in that hour, on that day of the week (when the bucket
    holds a number at all), in that month. *)
Theorem buckets_hold_the_sums_of_their_rows (df pdf : DataFrame)
    (evs : list event) :
  holds df evs →
  ∃ g p,
    plot_listening_patterns (Globals df pdf) = (g, Ok p) ∧
    (∀ h v, (h, v) ∈ hourly_listening p →
       v = Qsum (minutesPlayed <$> filter (λ e, hour (endTime e) = h) evs)) ∧
    (∀ d q, (d, Fin q) ∈ weekly_listening p →
       q = Qsum (minutesPlayed <$>
                 filter (λ e, day_name (endTime e) = d) evs)) ∧
    (∀ m v, (m, v) ∈ monthly_listening p →
       v = Qsum (minutesPlayed <$>
                 filter (λ e, strftime_Y_m (endTime e) = m) evs)).
Proof.
  intros Hdf. eexists _, _. split; [by eapply plot_listening_patterns_run|].
  cbn [hourly_listening weekly_listening monthly_listening].
  rewrite reindex_groupby_sum. unfold reset_index.
  rewrite <-!list_fmap_compose.
  rewrite !groupby_sum_rows.
  split; [|split].
  - intros h v (k & [= -> ->] & _)%list_elem_of_fmap. done.
  - intros d q (k & Heq & _)%list_elem_of_fmap.
    destruct (decide _); [|done]. injection Heq as -> ->.
    by rewrite group_rows_fmap.
  - intros m v (k & [= -> ->] & _)%list_elem_of_fmap. done.
Qed.

Lemma buckets_hold_the_sums_of_their_rows_witness :
  ∃ g p,
    plot_listening_patterns globals_two = (g, Ok p) ∧
    (∀ h v, (h, v) ∈ hourly_listening p →
       v = Qsum (minutesPlayed <$>
                 filter (λ e, hour (endTime e) = h) [event_a; event_b])) ∧
    (∀ d q, (d, Fin q) ∈ weekly_listening p →
       q = Qsum (minutesPlayed <$>
                 filter (λ e, day_name (endTime e) = d) [event_a; event_b])) ∧
    (∀ m v, (m, v) ∈ monthly_listening p →
       v = Qsum (minutesPlayed <$>
                 filter (λ e, strftime_Y_m (endTime e) = m) [event_a; event_b])).
Proof.
  apply (buckets_hold_the_sums_of_their_rows _ podcasts [event_a; event_b]).
  repeat split; by vm_compute.
Defined.

(** *** A frame that is not normalised *)

(** X23.  [plot_listening_patterns] works on normalised timestamps only.  On
    a music frame whose [endTime] column is missing, or holds anything
    but timestamps (the strings of the export, as [pd.DataFrame] leaves
    them), its first statement raises ([KeyError] for the missing
    column, [AttributeError] from [.dt] otherwise) and the frames are
    left as they were. *)
Theorem plot_listening_patterns_needs_timestamps (df pdf : DataFrame) :
  (∀ ts, df !! "endTime" ≠ Some (ColTime ts)) →
  plot_listening_patterns (Globals df pdf) =
    (Globals df pdf,
     Raise (match df !! "endTime" with
            | None => Exn KeyError "'endTime'"
            | Some _ =>
                Exn AttributeError
                    "Can only use .dt accessor with datetimelike values"
            end)).
Proof.
  intros Hno.
  cbv [plot_listening_patterns bind music lift getitem music_df].
  destruct (df !! "endTime") as [c|] eqn:Hc; [|reflexivity].
  destruct c as [l|l|l|l|l]; try reflexivity. by destruct (Hno l).
Qed.

Lemma plot_listening_patterns_needs_timestamps_witness :
  plot_listening_patterns
    (Globals {[ "endTime" := ColStr ["2024-01-01 10:00"] ]} podcasts) =
    (Globals {[ "endTime" := ColStr ["2024-01-01 10:00"] ]} podcasts,
     Raise (Exn AttributeError
                "Can only use .dt accessor with datetimelike values")).
Proof.
  refine (eq_trans (plot_listening_patterns_needs_timestamps
                      {[ "endTime" := ColStr ["2024-01-01 10:00"] ]} podcasts _) _).
  - intros ts. by vm_compute.
  - by vm_compute.
Defined.

End PatternFacts.
